(** * cloud-cost-backend: a shallow embedding of [main.py]

    The program is a FastAPI application: four module-level datasets, a
    [ConnectionManager] holding the list of open websockets, read endpoints,
    one compute endpoint, one filtered read and two write endpoints that
    replace a dataset and broadcast the new value to every websocket.

    Python values are embedded as follows.
    - [int] is [Z]; [float] is a primitive binary64 [float], the format
      CPython uses.
    - A [str] is a [string] holding its UTF-8 bytes.
    - A [dict] with a fixed set of keys is a record, a [list] is a [list].
    - A websocket object is a [nat]: Starlette compares connections by
      identity, so the number stands for the object.  What the object
      itself remembers, that it has been accepted, is part of the state.
    - An endpoint is a function from the process state to an outcome and
      the state it leaves behind.  An exception does not roll the state
      back, so the state is returned next to the outcome, never instead of
      it.
    - Coroutines are run to completion one after the other; interleaving of
      concurrent requests is not modelled. *)

From Stdlib Require Import ZArith NArith List String Ascii Bool Lia PeanoNat.
From Stdlib Require Import Floats.PrimFloat Floats.SpecFloat Floats.FloatOps.
From ExtLib Require Import Structures.Monad.
Import ListNotations.
Import MonadNotation.
Local Open Scope string_scope.
Local Open Scope list_scope.
Local Open Scope monad_scope.

(** ** Numbers *)

(** A JSON number held by the program: the sample data are Python [int]s,
    values that went through a pydantic [float] field are [float]s. *)
Inductive num : Type :=
  | Int (z : Z)
  | Float (f : float).

(** [float(z)] for a Python [int]: the nearest binary64 value, ties to
    even; CPython raises [OverflowError] when that value is not finite.
    [None] stands for the raised error. *)
Definition float_of_int (z : Z) : option float :=
  match binary_normalize prec emax z 0 false with
  | S754_infinity _ => None
  | sf => Some (SF2Prim sf)
  end.

(** ** Exceptions and outcomes *)

Definition WebSocket := nat.

(** [HandshakeError ws]: [ws.accept()] raised.  [SendError ws]:
    [ws.send_json(...)] raised. *)
Inductive exn : Type :=
  | ValueError
  | OverflowError
  | KeyError
  | HandshakeError (ws : WebSocket)
  | SendError (ws : WebSocket).

Inductive outcome (A : Type) : Type :=
  | Returns (a : A)
  | Raises (e : exn).

Arguments Returns {A} a.
Arguments Raises {A} e.

(** ** Dates

    [datetime.strptime] is library code; the two formats the program uses
    are modelled for the C locale.  Both formats leave the time of day at
    midnight, so a [datetime] is its calendar date. *)
Module DateTime.

Record datetime : Type := mk { year : Z; month : Z; day : Z }.

(** Comparison of naive datetimes: lexicographic on the fields. *)
Definition le (a b : datetime) : bool :=
  if (year a <? year b)%Z then true
  else if (year b <? year a)%Z then false
  else if (month a <? month b)%Z then true
  else if (month b <? month a)%Z then false
  else (day a <=? day b)%Z.

Definition is_leap (y : Z) : bool :=
  ((y mod 4 =? 0) && (negb (y mod 100 =? 0) || (y mod 400 =? 0)))%Z.

Definition days_in_month (y m : Z) : Z :=
  (if m =? 2 then (if is_leap y then 29 else 28)
   else if (m =? 4) || (m =? 6) || (m =? 9) || (m =? 11) then 30
   else 31)%Z.

(** A Python [str] is held as its UTF-8 bytes; [decode] gives back its
    code points.  Bytes that are not UTF-8 stand for U+FFFD, which matches
    nothing below. *)
Definition utf8_width (n : N) : nat :=
  if (n <? 128)%N then 1%nat
  else if ((192 <=? n) && (n <? 224))%N then 2%nat
  else if ((224 <=? n) && (n <? 240))%N then 3%nat
  else if ((240 <=? n) && (n <? 248))%N then 4%nat
  else 0%nat.

Definition continuation (c : ascii) : bool :=
  let n := N_of_ascii c in ((128 <=? n) && (n <? 192))%N.

Definition low6 (c : ascii) : N := (N_of_ascii c - 128)%N.

Fixpoint decode (s : string) : list N :=
  match s with
  | EmptyString => []
  | String b0 r0 =>
      let n0 := N_of_ascii b0 in
      match utf8_width n0, r0 with
      | 1%nat, _ => n0 :: decode r0
      | 2%nat, String b1 r1 =>
          if continuation b1
          then ((n0 - 192) * 64 + low6 b1)%N :: decode r1
          else 65533%N :: decode r0
      | 3%nat, String b1 (String b2 r2) =>
          if continuation b1 && continuation b2
          then ((n0 - 224) * 4096 + low6 b1 * 64 + low6 b2)%N :: decode r2
          else 65533%N :: decode r0
      | 4%nat, String b1 (String b2 (String b3 r3)) =>
          if continuation b1 && continuation b2 && continuation b3
          then ((n0 - 240) * 262144 + low6 b1 * 4096 + low6 b2 * 64 + low6 b3)%N
               :: decode r3
          else 65533%N :: decode r0
      | _, _ => 65533%N :: decode r0
      end
  end.

(** The code points of the digit zero of every script that has decimal
    digits (Unicode 14, the table of CPython 3.11): the nine code points
    after each are its digits one to nine.  The regular expression class
    [\d] of [strptime] matches these characters, and [int] reads them. *)
Definition decimal_zeros : list N :=
  [ 0x30; 0x660; 0x6f0; 0x7c0; 0x966; 0x9e6; 0xa66; 0xae6; 0xb66; 0xbe6;
    0xc66; 0xce6; 0xd66; 0xde6; 0xe50; 0xed0; 0xf20; 0x1040; 0x1090;
    0x17e0; 0x1810; 0x1946; 0x19d0; 0x1a80; 0x1a90; 0x1b50; 0x1bb0;
    0x1c40; 0x1c50; 0xa620; 0xa8d0; 0xa900; 0xa9d0; 0xa9f0; 0xaa50;
    0xabf0; 0xff10; 0x104a0; 0x10d30; 0x11066; 0x110f0; 0x11136; 0x111d0;
    0x112f0; 0x11450; 0x114d0; 0x11650; 0x116c0; 0x11730; 0x118e0;
    0x11950; 0x11c50; 0x11d50; 0x11da0; 0x16a60; 0x16ac0; 0x16b50;
    0x1d7ce; 0x1d7d8; 0x1d7e2; 0x1d7ec; 0x1d7f6; 0x1e140; 0x1e2f0;
    0x1e950; 0x1fbf0 ]%N.

Fixpoint decimal_in (zeros : list N) (c : N) : option Z :=
  match zeros with
  | [] => None
  | z :: rest =>
      if ((z <=? c) && (c <? z + 10))%N then Some (Z.of_N (c - z))
      else decimal_in rest c
  end.

(** [\d]: a decimal digit of any script, with its value. *)
Definition decimal (c : N) : option Z := decimal_in decimal_zeros c.

(** [[0-9]]: an ASCII digit, with its value. *)
Definition digit (c : N) : option Z :=
  if ((48 <=? c) && (c <=? 57))%N then Some (Z.of_N (c - 48)) else None.

(** [%Y], the pattern [\d\d\d\d]: exactly four decimal digits. *)
Definition year_field (s : list N) : option Z :=
  match s with
  | [a; b; c; d] =>
      match decimal a, decimal b, decimal c, decimal d with
      | Some a, Some b, Some c, Some d => Some (1000 * a + 100 * b + 10 * c + d)%Z
      | _, _, _, _ => None
      end
  | _ => None
  end.

(** [%m], the pattern [1[0-2]|0[1-9]|[1-9]]. *)
Definition month_field (s : list N) : option Z :=
  match s with
  | [a] =>
      match digit a with
      | Some a => if (1 <=? a)%Z then Some a else None
      | None => None
      end
  | [a; b] =>
      match digit a, digit b with
      | Some a, Some b =>
          let m := (10 * a + b)%Z in
          if (1 <=? m)%Z && (m <=? 12)%Z then Some m else None
      | _, _ => None
      end
  | _ => None
  end.

(** [%d], the pattern [3[0-1]|[1-2]\d|0[1-9]|[1-9]| [1-9]]: after a
    leading 1 or 2 the second digit may be of any script; a leading
    space stands for a leading zero. *)
Definition day_field (s : list N) : option Z :=
  match s with
  | [a] =>
      match digit a with
      | Some a => if (1 <=? a)%Z then Some a else None
      | None => None
      end
  | [a; b] =>
      match (if (a =? 32)%N then Some 0%Z else digit a) with
      | Some a =>
          match (if (1 <=? a)%Z && (a <=? 2)%Z then decimal b else digit b) with
          | Some b =>
              let d := (10 * a + b)%Z in
              if (1 <=? d)%Z && (d <=? 31)%Z then Some d else None
          | None => None
          end
      | None => None
      end
  | _ => None
  end.

(** The characters before the first ["-"], and those after it. *)
Fixpoint split_dash (s : list N) : option (list N * list N) :=
  match s with
  | [] => None
  | c :: rest =>
      if (c =? 45)%N then Some ([], rest)
      else match split_dash rest with
           | Some (a, b) => Some (c :: a, b)
           | None => None
           end
  end.

(** [datetime.strptime(s, "%Y-%m-%d")]; every failure is a
    [ValueError]. *)
Definition strptime_ymd (s : string) : outcome datetime :=
  match split_dash (decode s) with
  | Some (ys, rest) =>
      match split_dash rest with
      | Some (ms, ds) =>
          match year_field ys, month_field ms, day_field ds with
          | Some y, Some m, Some d =>
              if (1 <=? y)%Z && (d <=? days_in_month y m)%Z
              then Returns (mk y m d)
              else Raises ValueError
          | _, _, _ => Raises ValueError
          end
      | None => Raises ValueError
      end
  | None => Raises ValueError
  end.

Definition lower (c : ascii) : ascii :=
  let n := nat_of_ascii c in
  if (65 <=? n)%nat && (n <=? 90)%nat then ascii_of_nat (n + 32) else c.

Fixpoint lowercase (s : string) : string :=
  match s with
  | EmptyString => EmptyString
  | String c rest => String (lower c) (lowercase rest)
  end.

Definition month_names : list string :=
  ["january"; "february"; "march"; "april"; "may"; "june"; "july";
   "august"; "september"; "october"; "november"; "december"].

Fixpoint index_of (s : string) (l : list string) (i : Z) : option Z :=
  match l with
  | [] => None
  | x :: rest => if String.eqb s x then Some i else index_of s rest (i + 1)%Z
  end.

(** [datetime.strptime(s, "%B")]: a full month name, matched without
    regard to case; the missing fields default to 1900 and the first of
    the month. *)
Definition strptime_B (s : string) : outcome datetime :=
  match index_of (lowercase s) month_names 1%Z with
  | Some m => Returns (mk 1900 m 1)
  | None => Raises ValueError
  end.

End DateTime.

(** ** Data models *)

(** [class CloudCost(BaseModel)]: a validated request item. *)
Module CloudCost.
Record t : Type := mk { month : string; cost : float }.
End CloudCost.

(** [class ServiceUsage(BaseModel)].  Nothing relates the lengths of the
    two lists. *)
Module ServiceUsage.
Record t : Type := mk { labels : list string; data : list float }.
End ServiceUsage.

(** [class CostEstimationParams(BaseModel)]. *)
Module CostEstimationParams.
Record t : Type :=
  mk { instanceCount : Z; hoursPerDay : Z; daysPerMonth : Z; costPerHour : float }.
End CostEstimationParams.

(** The dict [{"month": ..., "cost": ...}] held in [cloud_costs]. *)
Record cost_dict : Type := CostDict { month : string; cost : num }.

(** The dict [{"labels": ..., "data": ...}] held in [service_usage] and
    [daily_costs]. *)
Record series_dict : Type := SeriesDict { labels : list string; data : list num }.

(** The dict [{"name": ..., "type": ..., "cost": ...}] held in
    [resources]. *)
Record resource_dict : Type :=
  ResourceDict { res_name : string; res_type : string; res_cost : num }.

(** [BaseModel.dict()] on the two models that are stored. *)
Definition CloudCost_dict (c : CloudCost.t) : cost_dict :=
  CostDict (CloudCost.month c) (Float (CloudCost.cost c)).

Definition ServiceUsage_dict (u : ServiceUsage.t) : series_dict :=
  SeriesDict (ServiceUsage.labels u) (map Float (ServiceUsage.data u)).

(** The dict [{"type": ..., "data": ...}] handed to [broadcast]; [data] is
    one of the two datasets that can be written. *)
Inductive dataset : Type :=
  | CloudCosts (v : list cost_dict)
  | ServiceUsageData (v : series_dict).

Record message : Type := Message { msg_type : string; msg_data : dataset }.

(** ** Process state *)

(** What the process does that can be seen from outside a single call, in
    the order it happens: an assignment to a module-level dataset, and a
    JSON message written to a websocket. *)
Inductive event : Type :=
  | Assigned (d : dataset)
  | Sent (ws : WebSocket) (m : message).

(** The four module-level variables, [manager.active_connections], the
    websockets whose peer is gone ([accept] and [send_json] raise on
    them), the events so far, oldest first, and the websockets that have
    been accepted. *)
Record World : Type := mkWorld {
  cloud_costs : list cost_dict;
  service_usage : series_dict;
  daily_costs : series_dict;
  resources : list resource_dict;
  active_connections : list WebSocket;
  gone : list WebSocket;
  trace : list event;
  accepted : list WebSocket
}.

Definition sample_cloud_costs : list cost_dict :=
  [ CostDict "January" (Int 65);
    CostDict "February" (Int 59);
    CostDict "March" (Int 80);
    CostDict "April" (Int 81);
    CostDict "May" (Int 56);
    CostDict "June" (Int 55);
    CostDict "July" (Int 40) ].

Definition sample_service_usage : series_dict :=
  SeriesDict ["Compute"; "Storage"; "Networking"; "Database"; "Analytics"]
             [Int 100; Int 150; Int 100; Int 200; Int 250].

Definition sample_daily_costs : series_dict :=
  SeriesDict ["Mon"; "Tue"; "Wed"; "Thu"; "Fri"; "Sat"; "Sun"]
             [Int 120; Int 190; Int 30; Int 50; Int 20; Int 30; Int 150].

Definition sample_resources : list resource_dict :=
  [ ResourceDict "Web Server" "EC2" (Int 100);
    ResourceDict "Database" "RDS" (Int 200);
    ResourceDict "Storage" "S3" (Int 50) ].

(** The state once the module has been imported: the sample data, no
    connection, nothing done yet, no websocket seen. *)
Definition startup : World :=
  mkWorld sample_cloud_costs sample_service_usage sample_daily_costs
          sample_resources [] [] [] [].

(** ** The monad of endpoint code *)

Definition Py (A : Type) : Type := World -> outcome A * World.

#[global] Instance Monad_Py : Monad Py := {
  ret := fun A (a : A) w => (Returns a, w);
  bind := fun A B (c : Py A) (k : A -> Py B) w =>
    match c w with
    | (Returns a, w') => k a w'
    | (Raises e, w') => (Raises e, w')
    end
}.

Definition raise {A : Type} (e : exn) : Py A := fun w => (Raises e, w).

Definition gets {A : Type} (f : World -> A) : Py A := fun w => (Returns (f w), w).

Definition modify (f : World -> World) : Py unit := fun w => (Returns tt, f w).

Definition lift {A : Type} (o : outcome A) : Py A := fun w => (o, w).

(** [for x in l: body(x)]: the first exception ends the loop. *)
Fixpoint for_each {A : Type} (l : list A) (body : A -> Py unit) : Py unit :=
  match l with
  | [] => ret tt
  | x :: rest => body x ;; for_each rest body
  end.

(** [[x for x in l if test(x)]]: [test] runs on every element, in order;
    the first exception ends the comprehension. *)
Fixpoint comprehension {A : Type} (l : list A) (test : A -> Py bool) : Py (list A) :=
  match l with
  | [] => ret []
  | x :: rest =>
      keep <- test x ;;
      tail <- comprehension rest test ;;
      ret (if keep then x :: tail else tail)
  end.

Definition set_cloud_costs (v : list cost_dict) (w : World) : World :=
  mkWorld v (service_usage w) (daily_costs w) (resources w)
          (active_connections w) (gone w) (trace w ++ [Assigned (CloudCosts v)])
          (accepted w).

Definition set_service_usage (v : series_dict) (w : World) : World :=
  mkWorld (cloud_costs w) v (daily_costs w) (resources w)
          (active_connections w) (gone w) (trace w ++ [Assigned (ServiceUsageData v)])
          (accepted w).

Definition set_active_connections (l : list WebSocket) (w : World) : World :=
  mkWorld (cloud_costs w) (service_usage w) (daily_costs w) (resources w)
          l (gone w) (trace w) (accepted w).

Definition emit (es : list event) (w : World) : World :=
  mkWorld (cloud_costs w) (service_usage w) (daily_costs w) (resources w)
          (active_connections w) (gone w) (trace w ++ es) (accepted w).

(** The peer of [ws] goes away.  The registry is not told: the program
    learns of it when a call on the websocket raises. *)
Definition peer_leaves (ws : WebSocket) (w : World) : World :=
  mkWorld (cloud_costs w) (service_usage w) (daily_costs w) (resources w)
          (active_connections w) (ws :: gone w) (trace w) (accepted w).

Definition is_gone (ws : WebSocket) (w : World) : bool :=
  existsb (Nat.eqb ws) (gone w).

Definition set_accepted (l : list WebSocket) (w : World) : World :=
  mkWorld (cloud_costs w) (service_usage w) (daily_costs w) (resources w)
          (active_connections w) (gone w) (trace w) l.

Definition is_accepted (ws : WebSocket) (w : World) : bool :=
  existsb (Nat.eqb ws) (accepted w).

(** ** Websocket calls *)

(** [await websocket.accept()]: library code.  It raises when the peer
    is gone, and on a websocket that has been accepted before, which
    Starlette refuses with a [RuntimeError]; otherwise the websocket is
    accepted from now on. *)
Definition accept (ws : WebSocket) : Py unit :=
  fun w =>
    if is_gone ws w || is_accepted ws w then (Raises (HandshakeError ws), w)
    else (Returns tt, set_accepted (ws :: accepted w) w).

(** [await connection.send_json(message)]. *)
Definition send_json (ws : WebSocket) (m : message) : Py unit :=
  fun w => if is_gone ws w then (Raises (SendError ws), w)
           else (Returns tt, emit [Sent ws m] w).

(** ** [class ConnectionManager] *)

(** [list.remove(x)]: drops the first item equal to [x]; [None] when there
    is none, where Python raises [ValueError]. *)
Fixpoint list_remove (x : WebSocket) (l : list WebSocket) : option (list WebSocket) :=
  match l with
  | [] => None
  | y :: rest =>
      if Nat.eqb y x then Some rest
      else match list_remove x rest with
           | Some rest' => Some (y :: rest')
           | None => None
           end
  end.

Definition connect (websocket : WebSocket) : Py unit :=
  accept websocket ;;
  modify (fun w => set_active_connections (active_connections w ++ [websocket]) w).

Definition disconnect (websocket : WebSocket) : Py unit :=
  fun w =>
    match list_remove websocket (active_connections w) with
    | Some l => (Returns tt, set_active_connections l w)
    | None => (Raises ValueError, w)
    end.

Definition broadcast (m : message) : Py unit :=
  conns <- gets active_connections ;;
  for_each conns (fun connection => send_json connection m).

(** ** Endpoints *)

Definition get_cloud_costs : Py (list cost_dict) := gets cloud_costs.

Definition get_service_usage : Py series_dict := gets service_usage.

Definition get_daily_costs : Py series_dict := gets daily_costs.

Definition get_resources : Py (list resource_dict) := gets resources.

(** The dict [{"estimatedMonthlyCost": ...}]. *)
Record estimate : Type := Estimate { estimatedMonthlyCost : float }.

(** The three [int]s are multiplied exactly; the product is converted to
    [float] for the last multiplication. *)
Definition estimate_cost (params : CostEstimationParams.t) : Py estimate :=
  let n := (CostEstimationParams.instanceCount params
            * CostEstimationParams.hoursPerDay params
            * CostEstimationParams.daysPerMonth params)%Z in
  match float_of_int n with
  | Some f =>
      let monthly_cost := PrimFloat.mul f (CostEstimationParams.costPerHour params) in
      ret (Estimate monthly_cost)
  | None => raise OverflowError
  end.

Definition get_filtered_costs (start_date end_date : string) : Py (list cost_dict) :=
  start <- lift (DateTime.strptime_ymd start_date) ;;
  end_ <- lift (DateTime.strptime_ymd end_date) ;;
  costs <- gets cloud_costs ;;
  comprehension costs (fun cost =>
    d <- lift (DateTime.strptime_B (month cost)) ;;
    ret (DateTime.le start d && DateTime.le d end_)).

(** The dict [{"message": ...}]. *)
Record reply : Type := Reply { reply_message : string }.

Definition update_cloud_costs (updated_costs : list CloudCost.t) : Py reply :=
  modify (set_cloud_costs (map CloudCost_dict updated_costs)) ;;
  v <- gets cloud_costs ;;
  broadcast (Message "cloud_costs" (CloudCosts v)) ;;
  ret (Reply "Cloud costs updated successfully").

Definition update_service_usage (updated_usage : ServiceUsage.t) : Py reply :=
  modify (set_service_usage (ServiceUsage_dict updated_usage)) ;;
  v <- gets service_usage ;;
  broadcast (Message "service_usage" (ServiceUsageData v)) ;;
  ret (Reply "Service usage updated successfully").


(** ** Requests

    Everything that can happen to the process between two observations: an
    HTTP request, one of the two halves of [websocket_endpoint], or a peer
    going away.  [websocket_endpoint] calls [manager.connect], waits in
    [receive_text] for as long as the peer stays, and calls
    [manager.disconnect] once [WebSocketDisconnect] is raised; other
    requests are served in between, so the two calls are two requests
    here. *)
Inductive request : Type :=
  | GetCloudCosts
  | GetServiceUsage
  | GetDailyCosts
  | GetResources
  | EstimateCost (params : CostEstimationParams.t)
  | GetFilteredCosts (start_date end_date : string)
  | UpdateCloudCosts (updated_costs : list CloudCost.t)
  | UpdateServiceUsage (updated_usage : ServiceUsage.t)
  | WsConnect (ws : WebSocket)
  | WsDisconnect (ws : WebSocket)
  | PeerLeaves (ws : WebSocket).

Definition is_write (r : request) : bool :=
  match r with
  | UpdateCloudCosts _ | UpdateServiceUsage _ => true
  | _ => false
  end.

(** The state a request leaves behind, whatever its outcome. *)
Definition handle (r : request) (w : World) : World :=
  match r with
  | GetCloudCosts => snd (get_cloud_costs w)
  | GetServiceUsage => snd (get_service_usage w)
  | GetDailyCosts => snd (get_daily_costs w)
  | GetResources => snd (get_resources w)
  | EstimateCost p => snd (estimate_cost p w)
  | GetFilteredCosts s e => snd (get_filtered_costs s e w)
  | UpdateCloudCosts c => snd (update_cloud_costs c w)
  | UpdateServiceUsage u => snd (update_service_usage u w)
  | WsConnect ws => snd (connect ws w)
  | WsDisconnect ws => snd (disconnect ws w)
  | PeerLeaves ws => peer_leaves ws w
  end.

Definition handle_all (rs : list request) (w : World) : World :=
  fold_left (fun w r => handle r w) rs w.

(** ** Vocabulary of the statements *)

(** The state [connect] leaves when it returns: [ws] accepted, and last
    in the registry. *)
Definition connected (ws : WebSocket) (w : World) : World :=
  set_active_connections (active_connections w ++ [ws])
                         (set_accepted (ws :: accepted w) w).

(** The peer of [ws] is still there. *)
Definition up (w : World) (ws : WebSocket) : Prop := is_gone ws w = false.

(** One [Sent] event per entry of [conns], in order. *)
Definition deliveries (conns : list WebSocket) (m : message) : list event :=
  map (fun ws => Sent ws m) conns.

(** How many messages of [es] went to [ws]. *)
Definition sends_to (ws : WebSocket) (es : list event) : nat :=
  List.length (filter (fun e => match e with
                                | Sent ws' _ => Nat.eqb ws' ws
                                | Assigned _ => false
                                end) es).

(** Two states that differ at most in their trace. *)
Definition same_but_trace (w w' : World) : Prop :=
  cloud_costs w' = cloud_costs w
  /\ service_usage w' = service_usage w
  /\ daily_costs w' = daily_costs w
  /\ resources w' = resources w
  /\ active_connections w' = active_connections w
  /\ gone w' = gone w
  /\ accepted w' = accepted w.

(** [0.1] is not a binary64 value; Python reads the literal as the
    nearest one. *)
Definition one_tenth : float := 0x1.999999999999ap-4%float.

(** ** [websocket_endpoint] *)

(** What the peer does next, as [await websocket.receive_text()] sees it:
    a text frame, which it returns; a binary frame, on which it raises
    [KeyError], the message having no ["text"]; or a close, on which it
    raises [WebSocketDisconnect]. *)
Inductive received : Type :=
  | Text (s : string)
  | Bytes
  | WebSocketDisconnect.

(** How [while True: await websocket.receive_text()] is left. *)
Inductive loop_end : Type :=
  | StillWaiting
  | RaisedWebSocketDisconnect
  | RaisedKeyError.

(** The loop against what the peer does next.  A text is dropped and the
    loop goes on; when the peer has done nothing more the coroutine is
    still waiting. *)
Fixpoint receive_loop (script : list received) : loop_end :=
  match script with
  | [] => StillWaiting
  | Text _ :: rest => receive_loop rest
  | Bytes :: _ => RaisedKeyError
  | WebSocketDisconnect :: _ => RaisedWebSocketDisconnect
  end.

(** How far a run of [websocket_endpoint] has come. *)
Inductive session : Type :=
  | Waiting
  | Closed.

(** One run of [websocket_endpoint] with no other request in between.
    [manager.connect] is outside the [try]: when it raises, nothing
    else runs.  The [except] clause catches [WebSocketDisconnect] only:
    any other exception of the loop leaves the endpoint without
    [manager.disconnect] being called. *)
Definition websocket_endpoint (websocket : WebSocket) (script : list received)
  : Py session :=
  connect websocket ;;
  match receive_loop script with
  | RaisedWebSocketDisconnect => disconnect websocket ;; ret Closed
  | RaisedKeyError => raise KeyError
  | StillWaiting => ret Waiting
  end.

(** Requests that call [manager.connect] or [manager.disconnect]. *)
Definition is_registry_event (r : request) : bool :=
  match r with
  | WsConnect _ | WsDisconnect _ => true
  | _ => false
  end.

Definition is_disconnect_of (ws : WebSocket) (r : request) : bool :=
  match r with
  | WsDisconnect ws' => Nat.eqb ws' ws
  | _ => false
  end.

Definition is_cloud_costs_write (r : request) : bool :=
  match r with
  | UpdateCloudCosts _ => true
  | _ => false
  end.

Definition is_service_usage_write (r : request) : bool :=
  match r with
  | UpdateServiceUsage _ => true
  | _ => false
  end.

(** Text made of ASCII characters only. *)
Fixpoint is_ascii (s : string) : bool :=
  match s with
  | EmptyString => true
  | String c rest => (N_of_ascii c <? 128)%N && is_ascii rest
  end.

(** The month of a stored record is one [strptime] reads. *)
Definition month_parses (c : cost_dict) : bool :=
  match DateTime.strptime_B (month c) with
  | Returns _ => true
  | Raises _ => false
  end.

(** * Properties *)

(** ** Sequencing *)

Lemma run_bind {A B : Type} (c : Py A) (k : A -> Py B) w :
  bind c k w
  = match c w with
    | (Returns a, w') => k a w'
    | (Raises e, w') => (Raises e, w')
    end.
Proof. reflexivity. Qed.

(** ** The trace *)

Lemma emit_nil w : emit [] w = w.
Proof. destruct w; unfold emit; cbn. now rewrite app_nil_r. Qed.

Lemma emit_emit es es' w : emit es' (emit es w) = emit (es ++ es') w.
Proof. unfold emit; cbn. now rewrite app_assoc. Qed.

Lemma is_gone_emit ws es w : is_gone ws (emit es w) = is_gone ws w.
Proof. reflexivity. Qed.

Lemma up_emit ws es w : up (emit es w) ws <-> up w ws.
Proof. reflexivity. Qed.

(** ** [send_json] and the loop of [broadcast] *)

Lemma send_json_up ws m w :
  up w ws -> send_json ws m w = (Returns tt, emit [Sent ws m] w).
Proof. unfold up, send_json. now intros ->. Qed.

Lemma send_json_gone ws m w :
  is_gone ws w = true -> send_json ws m w = (Raises (SendError ws), w).
Proof. unfold send_json. now intros ->. Qed.

Lemma for_each_cons {A} (x : A) rest body w :
  for_each (x :: rest) body w
  = match body x w with
    | (Returns _, w') => for_each rest body w'
    | (Raises e, w') => (Raises e, w')
    end.
Proof. reflexivity. Qed.

(** When every peer is there the loop runs to its end and writes one
    message per entry. *)
Lemma for_each_send_all_up m conns : forall w,
  Forall (up w) conns ->
  for_each conns (fun c => send_json c m) w
  = (Returns tt, emit (deliveries conns m) w).
Proof.
  induction conns as [|c conns IH]; intros w Hup.
  - cbn. now rewrite emit_nil.
  - inversion Hup as [|? ? Hc Hrest]; subst.
    rewrite for_each_cons, (send_json_up c m w Hc), IH.
    + now rewrite emit_emit.
    + eapply Forall_impl; [|exact Hrest]. intros a Ha. now apply up_emit.
Qed.

(** The loop ends at the first entry whose peer is gone: the entries
    before it got the message, the entries after it are never tried. *)
Lemma for_each_send_stops m pre c post : forall w,
  Forall (up w) pre ->
  is_gone c w = true ->
  for_each (pre ++ c :: post) (fun c => send_json c m) w
  = (Raises (SendError c), emit (deliveries pre m) w).
Proof.
  induction pre as [|p pre IH]; intros w Hup Hc.
  - cbn [app deliveries map]. rewrite for_each_cons, (send_json_gone c m w Hc).
    now rewrite emit_nil.
  - inversion Hup as [|? ? Hp Hrest]; subst.
    cbn [app]. rewrite for_each_cons, (send_json_up p m w Hp), IH.
    + now rewrite emit_emit.
    + eapply Forall_impl; [|exact Hrest]. intros a Ha. now apply up_emit.
    + now rewrite is_gone_emit.
Qed.

(** Whatever happens, the loop only appends messages to entries of the
    list it walks. *)
Lemma for_each_send_trace m conns : forall w,
  exists es,
    snd (for_each conns (fun c => send_json c m) w) = emit es w
    /\ Forall (fun e => exists c, In c conns /\ e = Sent c m) es.
Proof.
  induction conns as [|c conns IH]; intros w.
  - exists []. split; [now rewrite emit_nil | constructor].
  - rewrite for_each_cons. unfold send_json at 1.
    destruct (is_gone c w) eqn:Hc.
    + exists []. split; [now rewrite emit_nil | constructor].
    + destruct (IH (emit [Sent c m] w)) as (es & Hes & Hall).
      exists (Sent c m :: es). split.
      * rewrite Hes, emit_emit. reflexivity.
      * constructor; [exists c; split; [now left | reflexivity]|].
        eapply Forall_impl; [|exact Hall].
        intros e (c' & Hin & ->). exists c'. split; [now right | reflexivity].
Qed.

Lemma broadcast_unfold m w :
  broadcast m w = for_each (active_connections w) (fun c => send_json c m) w.
Proof. reflexivity. Qed.

Lemma broadcast_trace m w :
  exists es,
    snd (broadcast m w) = emit es w
    /\ Forall (fun e => exists c, In c (active_connections w) /\ e = Sent c m) es.
Proof. rewrite broadcast_unfold. apply for_each_send_trace. Qed.

Lemma same_but_trace_emit es w : same_but_trace w (emit es w).
Proof. repeat split. Qed.

(** Every registry splits at its first entry whose peer is gone. *)
Lemma first_failure_split w (conns : list WebSocket) :
  exists pre post,
    conns = pre ++ post
    /\ Forall (up w) pre
    /\ match post with [] => True | c :: _ => is_gone c w = true end.
Proof.
  induction conns as [|c conns (pre & post & -> & Hpre & Hpost)].
  - exists [], []. repeat split. constructor.
  - destruct (is_gone c w) eqn:Hc.
    + exists [], (c :: pre ++ post). repeat split; [constructor | exact Hc].
    + exists (c :: pre), post. repeat split; [|exact Hpost].
      constructor; [exact Hc | exact Hpre].
Qed.

(** A state with two listeners, the first of which has lost its peer. *)
Definition two_listeners_first_gone : World :=
  handle_all [WsConnect 1; WsConnect 2; PeerLeaves 1] startup.

Definition empty_update : message := Message "cloud_costs" (CloudCosts []).

(** C1, as stated, fails: with listeners 1 and 2 registered and the peer
    of 1 gone, [broadcast] raises to its caller and listener 2, whose peer
    is there, is sent nothing. *)
Lemma broadcast_failure_not_isolated :
  active_connections two_listeners_first_gone = [1; 2]
  /\ up two_listeners_first_gone 2
  /\ fst (broadcast empty_update two_listeners_first_gone) = Raises (SendError 1)
  /\ ~ In (Sent 2 empty_update)
          (trace (snd (broadcast empty_update two_listeners_first_gone))).
Proof.
  repeat split. vm_compute. intros [].
Qed.

(** The run of [broadcast] on a registry split at its first failing
    entry. *)
Lemma broadcast_split m w pre post :
  active_connections w = pre ++ post ->
  Forall (up w) pre ->
  match post with [] => True | c :: _ => is_gone c w = true end ->
  broadcast m w
  = (match post with [] => Returns tt | c :: _ => Raises (SendError c) end,
     emit (deliveries pre m) w).
Proof.
  intros Hconns Hpre Hpost. rewrite broadcast_unfold, Hconns.
  destruct post as [|c post].
  - rewrite app_nil_r. now apply for_each_send_all_up.
  - now apply for_each_send_stops.
Qed.

(** C1, amended: [broadcast] writes the message to the registered
    websockets in registry order and changes nothing but the trace.  When
    no send fails ([post] empty) every entry has been sent the message and
    [broadcast] returns; otherwise the first failing send ends it: the
    entries before it have been sent the message, the entries from it on
    have been sent nothing, and the error is raised to the caller. *)
Theorem broadcast_until_first_failure m w pre post :
  active_connections w = pre ++ post ->
  Forall (up w) pre ->
  match post with [] => True | c :: _ => is_gone c w = true end ->
  let w' := snd (broadcast m w) in
  fst (broadcast m w)
  = match post with [] => Returns tt | c :: _ => Raises (SendError c) end
  /\ trace w' = trace w ++ deliveries pre m
  /\ same_but_trace w w'.
Proof.
  intros Hconns Hpre Hpost w'. subst w'.
  rewrite (broadcast_split m w pre post Hconns Hpre Hpost).
  repeat split.
Qed.

Lemma broadcast_until_first_failure_witness :
  fst (broadcast empty_update two_listeners_first_gone) = Raises (SendError 1)
  /\ trace (snd (broadcast empty_update two_listeners_first_gone))
     = trace two_listeners_first_gone ++ deliveries [] empty_update.
Proof.
  destruct (broadcast_until_first_failure
              empty_update two_listeners_first_gone [] [1; 2]) as (H1 & H2 & _).
  - reflexivity.
  - constructor.
  - reflexivity.
  - split; [exact H1 | exact H2].
Defined.

(** ** [list.remove] and [disconnect] *)

Lemma list_remove_absent x l : ~ In x l -> list_remove x l = None.
Proof.
  induction l as [|y l IH]; intros Hin; [reflexivity|].
  cbn. destruct (Nat.eqb_spec y x) as [->|Hne].
  - exfalso. apply Hin. now left.
  - rewrite IH; [reflexivity|]. intros H. apply Hin. now right.
Qed.

Lemma list_remove_present x l :
  In x l ->
  exists l',
    list_remove x l = Some l'
    /\ S (count_occ Nat.eq_dec l' x) = count_occ Nat.eq_dec l x
    /\ forall y, y <> x -> count_occ Nat.eq_dec l' y = count_occ Nat.eq_dec l y.
Proof.
  induction l as [|y l IH]; intros Hin; [destruct Hin|].
  cbn [list_remove]. destruct (Nat.eqb_spec y x) as [->|Hne].
  - exists l. split; [reflexivity|]. split.
    + now rewrite count_occ_cons_eq.
    + intros y Hy. rewrite count_occ_cons_neq; [reflexivity | congruence].
  - destruct Hin as [Heq|Hin]; [contradiction|].
    destruct (IH Hin) as (l' & -> & Hx & Hother).
    exists (y :: l'). split; [reflexivity|]. split.
    + rewrite !count_occ_cons_neq by assumption. exact Hx.
    + intros z Hz. destruct (Nat.eq_dec y z) as [->|Hyz].
      * rewrite !count_occ_cons_eq by reflexivity. f_equal. now apply Hother.
      * rewrite !count_occ_cons_neq by assumption. now apply Hother.
Qed.

(** Only the first occurrence goes. *)
Lemma list_remove_first x l r :
  ~ In x l -> list_remove x (l ++ x :: r) = Some (l ++ r).
Proof.
  induction l as [|y l IH]; intros Hin; cbn.
  - now rewrite Nat.eqb_refl.
  - destruct (Nat.eqb_spec y x) as [->|Hne].
    + exfalso. apply Hin. now left.
    + rewrite IH; [reflexivity|]. intros H. apply Hin. now right.
Qed.

(** C2, as stated, fails: a listener that is registered once and
    unregistered twice gets [ValueError] from the second call, which is
    therefore not a call that returns and changes nothing. *)
Lemma disconnect_twice_raises :
  let w := handle_all [WsConnect 7; WsDisconnect 7] startup in
  ~ In 7 (active_connections w)
  /\ disconnect 7 w <> (Returns tt, w)
  /\ fst (disconnect 7 w) = Raises ValueError.
Proof.
  cbv zeta. split; [|split].
  - vm_compute. intros [].
  - vm_compute. discriminate.
  - reflexivity.
Qed.

(** C2, amended: unregistering a websocket that is not in the registry
    raises [ValueError] to the caller of [disconnect] and leaves the whole
    state as it was: the registry, the datasets, and what has been sent to
    any listener. *)
Theorem disconnect_absent_raises ws w :
  ~ In ws (active_connections w) ->
  disconnect ws w = (Raises ValueError, w).
Proof.
  intros Hin. unfold disconnect. now rewrite list_remove_absent.
Qed.

Lemma disconnect_absent_raises_witness :
  disconnect 7 startup = (Raises ValueError, startup).
Proof.
  apply (disconnect_absent_raises 7 startup). simpl. intros [].
Defined.

(** When the websocket is registered [disconnect] returns and takes one
    entry out. *)
Lemma disconnect_present ws w :
  In ws (active_connections w) ->
  exists l,
    disconnect ws w = (Returns tt, set_active_connections l w)
    /\ S (count_occ Nat.eq_dec l ws) = count_occ Nat.eq_dec (active_connections w) ws
    /\ forall y, y <> ws ->
         count_occ Nat.eq_dec l y = count_occ Nat.eq_dec (active_connections w) y.
Proof.
  intros Hin. destruct (list_remove_present ws _ Hin) as (l & Hl & Hx & Hother).
  exists l. unfold disconnect. rewrite Hl. auto.
Qed.

(** ** [connect] *)

Lemma connect_up ws w :
  up w ws ->
  is_accepted ws w = false ->
  connect ws w = (Returns tt, connected ws w).
Proof.
  unfold up, connect, accept. rewrite run_bind. now intros -> ->.
Qed.


Lemma connect_accepted ws w :
  is_accepted ws w = true -> connect ws w = (Raises (HandshakeError ws), w).
Proof.
  unfold connect, accept. rewrite run_bind. intros ->. now rewrite orb_true_r.
Qed.

Lemma is_accepted_connected ws w : is_accepted ws (connected ws w) = true.
Proof. unfold is_accepted. cbn. now rewrite Nat.eqb_refl. Qed.

Lemma sends_to_app ws es es' :
  sends_to ws (es ++ es') = sends_to ws es + sends_to ws es'.
Proof. unfold sends_to. now rewrite filter_app, length_app. Qed.

Lemma sends_to_deliveries ws m conns :
  sends_to ws (deliveries conns m) = count_occ Nat.eq_dec conns ws.
Proof.
  induction conns as [|c conns IH]; [reflexivity|].
  unfold sends_to, deliveries in *. cbn [map filter].
  destruct (Nat.eqb_spec c ws) as [->|Hne].
  - rewrite count_occ_cons_eq by reflexivity. cbn [List.length]. now rewrite IH.
  - now rewrite count_occ_cons_neq by assumption.
Qed.

(** C10, as stated, fails: registering websocket 3 twice in a row leaves
    one entry in the registry, not two, and the second call raises. *)
Lemma second_registration_refused :
  fst ((connect 3 ;; connect 3) startup) = Raises (HandshakeError 3)
  /\ active_connections (snd ((connect 3 ;; connect 3) startup)) = [3].
Proof. split; reflexivity. Qed.

(** C10, amended: [connect] accepts the websocket before it appends it,
    and a websocket that has been accepted cannot be accepted again.
    Registering the same websocket twice in a row therefore appends one
    entry: the second call raises out of [accept] and appends nothing.  A
    broadcast then writes the message to that websocket once more than
    before, and one [disconnect] returns and takes that entry out
    again. *)
Theorem duplicate_registration_refused ws m w :
  up w ws ->
  is_accepted ws w = false ->
  Forall (up w) (active_connections w) ->
  exists w1 w3 es,
    connect ws w = (Returns tt, w1)
    /\ connect ws w1 = (Raises (HandshakeError ws), w1)
    /\ (connect ws ;; connect ws) w = (Raises (HandshakeError ws), w1)
    /\ active_connections w1 = active_connections w ++ [ws]
    /\ broadcast m w1 = (Returns tt, emit es w1)
    /\ es = deliveries (active_connections w) m ++ [Sent ws m]
    /\ sends_to ws es = count_occ Nat.eq_dec (active_connections w) ws + 1
    /\ disconnect ws w1 = (Returns tt, w3)
    /\ count_occ Nat.eq_dec (active_connections w3) ws
       = count_occ Nat.eq_dec (active_connections w) ws
    /\ (~ In ws (active_connections w) ->
        active_connections w3 = active_connections w).
Proof.
  intros Hws Hnew Hall.
  pose proof (connect_up ws w Hws Hnew) as Hrun1.
  pose proof (connect_accepted ws _ (is_accepted_connected ws w)) as Hrun2.
  assert (Hconns : active_connections (connected ws w) = active_connections w ++ [ws])
    by reflexivity.
  assert (Hin : In ws (active_connections (connected ws w))).
  { rewrite Hconns. apply in_or_app. right. now left. }
  destruct (disconnect_present ws _ Hin) as (l & Hdis & Hcount & _).
  exists (connected ws w), (set_active_connections l (connected ws w)),
    (deliveries (active_connections w) m ++ [Sent ws m]).
  split; [exact Hrun1|]. split; [exact Hrun2|].
  split; [now rewrite run_bind, Hrun1|].
  split; [exact Hconns|]. split; [|split; [reflexivity|split; [|split; [exact Hdis|split]]]].
  - replace (deliveries (active_connections w) m ++ [Sent ws m])
      with (deliveries (active_connections (connected ws w)) m)
      by (rewrite Hconns; unfold deliveries; now rewrite map_app).
    apply (broadcast_split m (connected ws w) (active_connections (connected ws w)) []).
    + now rewrite app_nil_r.
    + rewrite Hconns. apply Forall_app. split; [exact Hall|].
      repeat constructor; exact Hws.
    + exact I.
  - rewrite sends_to_app, sends_to_deliveries. f_equal.
    unfold sends_to. cbn. now rewrite Nat.eqb_refl.
  - cbn [active_connections set_active_connections].
    rewrite Hconns, count_occ_app in Hcount.
    rewrite count_occ_cons_eq in Hcount by reflexivity.
    cbn [count_occ] in Hcount. apply Nat.succ_inj.
    etransitivity; [exact Hcount|]. now rewrite Nat.add_succ_r, Nat.add_0_r.
  - intros Hfresh. cbn [active_connections set_active_connections].
    unfold disconnect in Hdis. rewrite Hconns in Hdis.
    rewrite (list_remove_first ws (active_connections w) [] Hfresh) in Hdis.
    rewrite app_nil_r in Hdis. now inversion Hdis.
Qed.

Lemma duplicate_registration_refused_witness :
  exists w1 w3 es,
    connect 3 startup = (Returns tt, w1)
    /\ connect 3 w1 = (Raises (HandshakeError 3), w1)
    /\ (connect 3 ;; connect 3) startup = (Raises (HandshakeError 3), w1)
    /\ active_connections w1 = active_connections startup ++ [3]
    /\ broadcast empty_update w1 = (Returns tt, emit es w1)
    /\ es = deliveries (active_connections startup) empty_update
            ++ [Sent 3 empty_update]
    /\ sends_to 3 es = count_occ Nat.eq_dec (active_connections startup) 3 + 1
    /\ disconnect 3 w1 = (Returns tt, w3)
    /\ count_occ Nat.eq_dec (active_connections w3) 3
       = count_occ Nat.eq_dec (active_connections startup) 3
    /\ (~ In 3 (active_connections startup) ->
        active_connections w3 = active_connections startup).
Proof.
  apply (duplicate_registration_refused 3 empty_update startup).
  - reflexivity.
  - reflexivity.
  - simpl. constructor.
Defined.

(** ** The write endpoints *)

Definition cloud_costs_message (v : list cost_dict) : message :=
  Message "cloud_costs" (CloudCosts v).

Definition service_usage_message (v : series_dict) : message :=
  Message "service_usage" (ServiceUsageData v).

Lemma update_cloud_costs_unfold updated_costs w :
  update_cloud_costs updated_costs w
  = let v := map CloudCost_dict updated_costs in
    match broadcast (cloud_costs_message v) (set_cloud_costs v w) with
    | (Returns _, w') => (Returns (Reply "Cloud costs updated successfully"), w')
    | (Raises e, w') => (Raises e, w')
    end.
Proof. reflexivity. Qed.

Lemma update_service_usage_unfold updated_usage w :
  update_service_usage updated_usage w
  = let v := ServiceUsage_dict updated_usage in
    match broadcast (service_usage_message v) (set_service_usage v w) with
    | (Returns _, w') => (Returns (Reply "Service usage updated successfully"), w')
    | (Raises e, w') => (Raises e, w')
    end.
Proof. reflexivity. Qed.

(** What a write leaves behind, whether or not every send went through:
    the dataset replaced, then messages carrying the new value. *)
Lemma update_cloud_costs_state updated_costs w :
  let v := map CloudCost_dict updated_costs in
  exists sends,
    snd (update_cloud_costs updated_costs w) = emit sends (set_cloud_costs v w)
    /\ Forall (fun e => exists c, In c (active_connections w)
                                  /\ e = Sent c (cloud_costs_message v)) sends.
Proof.
  intros v. rewrite update_cloud_costs_unfold. fold v.
  destruct (broadcast_trace (cloud_costs_message v) (set_cloud_costs v w))
    as (es & Hes & Hall).
  exists es. split; [|exact Hall].
  cbv zeta. now destruct (broadcast _ _) as [[[]|e] w'].
Qed.

Lemma update_service_usage_state updated_usage w :
  let v := ServiceUsage_dict updated_usage in
  exists sends,
    snd (update_service_usage updated_usage w) = emit sends (set_service_usage v w)
    /\ Forall (fun e => exists c, In c (active_connections w)
                                  /\ e = Sent c (service_usage_message v)) sends.
Proof.
  intros v. rewrite update_service_usage_unfold. fold v.
  destruct (broadcast_trace (service_usage_message v) (set_service_usage v w))
    as (es & Hes & Hall).
  exists es. split; [|exact Hall].
  cbv zeta. now destruct (broadcast _ _) as [[[]|e] w'].
Qed.

Lemma CloudCost_dict_inj c c' : CloudCost_dict c = CloudCost_dict c' -> c = c'.
Proof.
  destruct c as [m x], c' as [m' x']. unfold CloudCost_dict. cbn.
  now intros [= -> ->].
Qed.

Lemma map_CloudCost_dict_inj W : forall W',
  map CloudCost_dict W = map CloudCost_dict W' -> W = W'.
Proof.
  induction W as [|c W IH]; intros [|c' W'] H; try discriminate; [reflexivity|].
  cbn [map] in H.
  pose proof (f_equal (hd (CloudCost_dict c)) H) as Hc.
  pose proof (f_equal (@tl cost_dict) H) as HW.
  cbn [hd tl] in Hc, HW.
  f_equal; [now apply CloudCost_dict_inj | now apply IH].
Qed.

(** C4: a [GET /cloud-costs] that follows [PUT /update-cloud-costs] with
    the validated payload [W] returns the records of [W], in order, and
    nothing else: [W] is the only payload with these records.  This holds
    whether or not the broadcast went through. *)
Theorem get_after_update_cloud_costs (W : list CloudCost.t) (w : World) :
  exists rows,
    fst (get_cloud_costs (snd (update_cloud_costs W w))) = Returns rows
    /\ rows = map CloudCost_dict W
    /\ map month rows = map CloudCost.month W
    /\ map cost rows = map (fun c => Float (CloudCost.cost c)) W
    /\ forall W', map CloudCost_dict W' = rows -> W' = W.
Proof.
  destruct (update_cloud_costs_state W w) as (sends & Hstate & _).
  exists (map CloudCost_dict W). rewrite Hstate. repeat split.
  - now rewrite map_map.
  - now rewrite map_map.
  - intros W' HW'. now apply map_CloudCost_dict_inj.
Qed.

(** C5: in one call of either write endpoint the assignment to the dataset
    comes first and the messages of the broadcast follow it, one to each
    registered websocket in registry order up to the first failing send
    (to all of them when [post] is empty); every such message carries the
    value that has just been stored. *)
Theorem mutation_precedes_broadcast
        (W : list CloudCost.t) (U : ServiceUsage.t) (w : World) pre post :
  active_connections w = pre ++ post ->
  Forall (up w) pre ->
  match post with [] => True | c :: _ => is_gone c w = true end ->
  (let w' := snd (update_cloud_costs W w) in
   cloud_costs w' = map CloudCost_dict W
   /\ trace w'
      = trace w ++ Assigned (CloudCosts (cloud_costs w'))
                :: deliveries pre (Message "cloud_costs" (CloudCosts (cloud_costs w'))))
  /\ (let w' := snd (update_service_usage U w) in
      service_usage w' = ServiceUsage_dict U
      /\ trace w'
         = trace w ++ Assigned (ServiceUsageData (service_usage w'))
                   :: deliveries pre (Message "service_usage"
                                              (ServiceUsageData (service_usage w')))).
Proof.
  intros Hconns Hpre Hpost. split.
  - cbv zeta. rewrite update_cloud_costs_unfold. cbv zeta.
    rewrite (broadcast_split (cloud_costs_message (map CloudCost_dict W))
               (set_cloud_costs (map CloudCost_dict W) w) pre post Hconns Hpre Hpost).
    destruct post; cbn; now rewrite <- app_assoc.
  - cbv zeta. rewrite update_service_usage_unfold. cbv zeta.
    rewrite (broadcast_split (service_usage_message (ServiceUsage_dict U))
               (set_service_usage (ServiceUsage_dict U) w) pre post Hconns Hpre Hpost).
    destruct post; cbn; now rewrite <- app_assoc.
Qed.

Lemma mutation_precedes_broadcast_witness :
  let w := handle_all [WsConnect 1; WsConnect 2; WsConnect 3; PeerLeaves 2] startup in
  let v := [CostDict "May" (Float one_tenth)] in
  trace (snd (update_cloud_costs [CloudCost.mk "May" one_tenth] w))
  = trace w ++ [Assigned (CloudCosts v); Sent 1 (Message "cloud_costs" (CloudCosts v))].
Proof.
  cbv zeta.
  destruct (mutation_precedes_broadcast
              [CloudCost.mk "May" one_tenth] (ServiceUsage.mk [] [])
              (handle_all [WsConnect 1; WsConnect 2; WsConnect 3; PeerLeaves 2] startup)
              [1] [2; 3]) as ((_ & H) & _).
  - reflexivity.
  - repeat constructor.
  - reflexivity.
  - exact H.
Defined.

(** C9: each write endpoint touches its own dataset only. *)
Theorem write_endpoints_frame :
  (forall (W : list CloudCost.t) (w : World),
     let w' := snd (update_cloud_costs W w) in
     service_usage w' = service_usage w
     /\ daily_costs w' = daily_costs w
     /\ resources w' = resources w
     /\ active_connections w' = active_connections w)
  /\ (forall (U : ServiceUsage.t) (w : World),
        let w' := snd (update_service_usage U w) in
        cloud_costs w' = cloud_costs w
        /\ daily_costs w' = daily_costs w
        /\ resources w' = resources w
        /\ active_connections w' = active_connections w).
Proof.
  split.
  - intros W w w'. subst w'.
    destruct (update_cloud_costs_state W w) as (sends & -> & _). repeat split.
  - intros U w w'. subst w'.
    destruct (update_service_usage_state U w) as (sends & -> & _). repeat split.
Qed.

(** C8: a [ServiceUsage] whose two lists differ in length is not turned
    away.  It is stored as it is, a later read returns it, and it is
    broadcast: the only way the call can fail is a send to a listener
    whose peer is gone, and with every peer there it returns after
    sending the stored value to every listener. *)
Theorem unequal_lengths_are_stored (U : ServiceUsage.t) (w : World) :
  List.length (ServiceUsage.labels U) <> List.length (ServiceUsage.data U) ->
  let v := ServiceUsage_dict U in
  let w' := snd (update_service_usage U w) in
  service_usage w' = v
  /\ labels (service_usage w') = ServiceUsage.labels U
  /\ data (service_usage w') = map Float (ServiceUsage.data U)
  /\ List.length (labels (service_usage w')) <> List.length (data (service_usage w'))
  /\ fst (get_service_usage w') = Returns v
  /\ (fst (update_service_usage U w) = Returns (Reply "Service usage updated successfully")
      \/ exists c, In c (active_connections w) /\ is_gone c w = true
                   /\ fst (update_service_usage U w) = Raises (SendError c))
  /\ (Forall (up w) (active_connections w) ->
      update_service_usage U w
      = (Returns (Reply "Service usage updated successfully"),
         emit (deliveries (active_connections w)
                          (Message "service_usage" (ServiceUsageData v)))
              (set_service_usage v w))).
Proof.
  intros Hlen v w'.
  assert (Hstored : service_usage w' = v).
  { subst w'. destruct (update_service_usage_state U w) as (sends & -> & _).
    reflexivity. }
  split; [exact Hstored|]. rewrite Hstored.
  split; [reflexivity|]. split; [reflexivity|]. split.
  { cbn. now rewrite length_map. }
  split; [unfold get_service_usage, gets; cbn; now rewrite Hstored|].
  split.
  - rewrite update_service_usage_unfold. fold v. cbv zeta.
    destruct (first_failure_split (set_service_usage v w) (active_connections w))
      as (pre & post & Hconns & Hpre & Hpost).
    rewrite (broadcast_split (service_usage_message v)
               (set_service_usage v w) pre post Hconns Hpre Hpost).
    destruct post as [|c post]; [now left|right].
    exists c. repeat split; [|exact Hpost].
    rewrite Hconns. apply in_or_app. right. now left.
  - intros Hall. rewrite update_service_usage_unfold. fold v. cbv zeta.
    rewrite (broadcast_split (service_usage_message v)
               (set_service_usage v w) (active_connections w) []);
      [| now rewrite app_nil_r | exact Hall | exact I].
    reflexivity.
Qed.

Lemma unequal_lengths_are_stored_witness :
  let U := ServiceUsage.mk ["Compute"; "Storage"] [one_tenth] in
  let w' := snd (update_service_usage U startup) in
  service_usage w' = ServiceUsage_dict U
  /\ List.length (labels (service_usage w')) <> List.length (data (service_usage w')).
Proof.
  cbv zeta.
  pose proof (unequal_lengths_are_stored
                (ServiceUsage.mk ["Compute"; "Storage"] [one_tenth]) startup) as H.
  cbv zeta in H.
  assert (Hlen : List.length (ServiceUsage.labels (ServiceUsage.mk ["Compute"; "Storage"] [one_tenth]))
                 <> List.length (ServiceUsage.data (ServiceUsage.mk ["Compute"; "Storage"] [one_tenth]))).
  { simpl. discriminate. }
  destruct (H Hlen) as (H1 & _ & _ & H4 & _).
  split; [exact H1 | exact H4].
Defined.

(** ** [estimate_cost] *)

Example float_of_int_3600 : float_of_int 3600 = Some 3600%float.
Proof. vm_compute. reflexivity. Qed.

(** The largest [int] that still has a [float], and the one after it. *)
Example float_of_int_largest :
  float_of_int (2 ^ 1024 - 2 ^ 970 - 1) = Some 0x1.fffffffffffffp+1023%float.
Proof. vm_compute. reflexivity. Qed.

Example float_of_int_too_large : float_of_int (2 ^ 1024 - 2 ^ 970) = None.
Proof. vm_compute. reflexivity. Qed.

(** C6, as stated, fails: the parameters are well typed ([int] has no
    bound) and the call raises [OverflowError] instead of returning a
    cost, because the product of the three integers has no [float]. *)
Lemma estimate_cost_overflows :
  fst (estimate_cost (CostEstimationParams.mk (10 ^ 400) 1 1 one_tenth) startup)
  = Raises OverflowError.
Proof. vm_compute. reflexivity. Qed.

(** C6, amended: [estimate_cost] neither reads nor writes the state.
    When the exact product of the three integers converts to a [float],
    it returns that float times [costPerHour] under the key
    [estimatedMonthlyCost]; when it does not, it raises [OverflowError].
    For 5 instances, 24 hours, 30 days and 0.1 per hour it returns
    360.0. *)
Theorem estimate_cost_spec (p : CostEstimationParams.t) (w : World) :
  let n := (CostEstimationParams.instanceCount p
            * CostEstimationParams.hoursPerDay p
            * CostEstimationParams.daysPerMonth p)%Z in
  snd (estimate_cost p w) = w
  /\ (forall w0, fst (estimate_cost p w0) = fst (estimate_cost p w))
  /\ (forall f, float_of_int n = Some f ->
        fst (estimate_cost p w)
        = Returns (Estimate (PrimFloat.mul f (CostEstimationParams.costPerHour p))))
  /\ (float_of_int n = None -> fst (estimate_cost p w) = Raises OverflowError)
  /\ fst (estimate_cost (CostEstimationParams.mk 5 24 30 one_tenth) w)
     = Returns (Estimate 360%float).
Proof.
  intros n. unfold estimate_cost. fold n. repeat split.
  - now destruct (float_of_int n).
  - intros w0. now destruct (float_of_int n).
  - now intros f ->.
  - now intros ->.
Qed.

Lemma estimate_cost_spec_witness :
  fst (estimate_cost (CostEstimationParams.mk 2 12 31 one_tenth) startup)
  = Returns (Estimate (PrimFloat.mul 744%float one_tenth)).
Proof.
  apply (proj1 (proj2 (proj2
    (estimate_cost_spec (CostEstimationParams.mk 2 12 31 one_tenth) startup)))).
  vm_compute. reflexivity.
Defined.

(** ** [get_filtered_costs] *)

(** The test of the comprehension, for a record whose month parses. *)
Definition in_range (start end_ : DateTime.datetime) (c : cost_dict) : bool :=
  match DateTime.strptime_B (month c) with
  | Returns d => DateTime.le start d && DateTime.le d end_
  | Raises _ => false
  end.

Lemma comprehension_pure {A : Type} (test : A -> Py bool) (l : list A) :
  (forall x w, snd (test x w) = w) ->
  forall w, snd (comprehension l test w) = w.
Proof.
  intros Htest. induction l as [|x l IH]; intros w; [reflexivity|].
  cbn [comprehension]. rewrite run_bind.
  specialize (Htest x w). destruct (test x w) as [[keep|e] w1]; cbn in Htest; subst w1.
  - rewrite run_bind. specialize (IH w).
    destruct (comprehension l test w) as [[tail|e] w2]; cbn in IH; now subst w2.
  - reflexivity.
Qed.

Lemma get_filtered_costs_pure start_date end_date w :
  snd (get_filtered_costs start_date end_date w) = w.
Proof.
  unfold get_filtered_costs. rewrite !run_bind. unfold lift at 1.
  destruct (DateTime.strptime_ymd start_date) as [start|e]; [|reflexivity].
  rewrite run_bind. unfold lift at 1.
  destruct (DateTime.strptime_ymd end_date) as [end_|e]; [|reflexivity].
  rewrite run_bind. unfold gets at 1.
  apply comprehension_pure. intros x w0. rewrite run_bind. unfold lift.
  now destruct (DateTime.strptime_B (month x)).
Qed.

(** When both boundaries and every stored month parse, the endpoint keeps
    the records whose month, read as a day of the year 1900, lies between
    the boundaries. *)
Lemma get_filtered_costs_filter start_date end_date start end_ w :
  DateTime.strptime_ymd start_date = Returns start ->
  DateTime.strptime_ymd end_date = Returns end_ ->
  Forall (fun c => exists d, DateTime.strptime_B (month c) = Returns d) (cloud_costs w) ->
  get_filtered_costs start_date end_date w
  = (Returns (filter (in_range start end_) (cloud_costs w)), w).
Proof.
  intros Hs He Hall. unfold get_filtered_costs.
  rewrite run_bind, Hs. unfold lift at 1.
  rewrite run_bind, He. unfold lift at 1.
  rewrite run_bind. unfold gets at 1.
  induction Hall as [|c l (d & Hd) _ IH]; [reflexivity|].
  cbn [comprehension filter]. rewrite !run_bind. unfold lift at 1.
  unfold in_range at 1. rewrite Hd.
  change (@ret Py Monad_Py bool (DateTime.le start d && DateTime.le d end_) w)
    with (Returns (DateTime.le start d && DateTime.le d end_), w).
  cbv iota beta. rewrite run_bind, IH. reflexivity.
Qed.

Lemma strptime_B_year s d :
  DateTime.strptime_B s = Returns d -> DateTime.year d = 1900%Z.
Proof.
  unfold DateTime.strptime_B.
  destruct (DateTime.index_of _ _ _); [|discriminate].
  now intros [= <-].
Qed.

(** The year of the boundary counts: a start after 1900 keeps nothing. *)
Lemma in_range_after_1900 start end_ c :
  (1900 < DateTime.year start)%Z -> in_range start end_ c = false.
Proof.
  intros Hy. unfold in_range.
  destruct (DateTime.strptime_B (month c)) as [d|e] eqn:Hd; [|reflexivity].
  apply strptime_B_year in Hd. unfold DateTime.le. rewrite Hd.
  destruct (Z.ltb_spec (DateTime.year start) 1900); [lia|].
  destruct (Z.ltb_spec 1900 (DateTime.year start)); [reflexivity | lia].
Qed.

Lemma filter_none {A : Type} (f : A -> bool) (l : list A) :
  (forall x, f x = false) -> filter f l = [].
Proof.
  intros Hf. induction l as [|x l IH]; [reflexivity|].
  cbn. now rewrite Hf.
Qed.

Lemma get_filtered_costs_after_1900 start_date end_date start end_ w :
  DateTime.strptime_ymd start_date = Returns start ->
  DateTime.strptime_ymd end_date = Returns end_ ->
  Forall (fun c => exists d, DateTime.strptime_B (month c) = Returns d) (cloud_costs w) ->
  (1900 < DateTime.year start)%Z ->
  get_filtered_costs start_date end_date w = (Returns [], w).
Proof.
  intros Hs He Hall Hy.
  rewrite (get_filtered_costs_filter start_date end_date start end_ w Hs He Hall).
  rewrite filter_none; [reflexivity|].
  intros c. now apply in_range_after_1900.
Qed.

(** With boundaries in 1900 the sample data yield February to April. *)
Example filtered_costs_1900 :
  get_filtered_costs "1900-02-01" "1900-04-30" startup
  = (Returns [CostDict "February" (Int 59); CostDict "March" (Int 80);
              CostDict "April" (Int 81)], startup).
Proof. vm_compute. reflexivity. Qed.

(** C3: at [start_date=2023-02-01], [end_date=2023-04-30] and the sample
    data the endpoint returns the empty list, not the records of February,
    March and April: every stored month is read as a day of 1900, which
    lies before the start. *)
Theorem filtered_costs_2023_is_empty :
  get_filtered_costs "2023-02-01" "2023-04-30" startup = (Returns [], startup).
Proof. vm_compute. reflexivity. Qed.

(** ** Reads and the registry leave the datasets alone *)

Lemma estimate_cost_pure p w : snd (estimate_cost p w) = w.
Proof. unfold estimate_cost. now destruct (float_of_int _). Qed.

Lemma connect_cloud_costs ws w : cloud_costs (snd (connect ws w)) = cloud_costs w.
Proof.
  unfold connect, accept. rewrite run_bind.
  now destruct (is_gone ws w || is_accepted ws w).
Qed.

Lemma disconnect_cloud_costs ws w : cloud_costs (snd (disconnect ws w)) = cloud_costs w.
Proof.
  unfold disconnect. now destruct (list_remove ws (active_connections w)).
Qed.

Lemma handle_read_cloud_costs r w :
  is_write r = false -> cloud_costs (handle r w) = cloud_costs w.
Proof.
  destruct r; cbn [is_write handle]; intros Hr; try discriminate; try reflexivity.
  - now rewrite estimate_cost_pure.
  - now rewrite get_filtered_costs_pure.
  - apply connect_cloud_costs.
  - apply disconnect_cloud_costs.
Qed.

Lemma handle_all_reads_cloud_costs rs : forall w,
  forallb (fun r => negb (is_write r)) rs = true ->
  cloud_costs (handle_all rs w) = cloud_costs w.
Proof.
  induction rs as [|r rs IH]; intros w Hrs; [reflexivity|].
  cbn in Hrs. apply andb_true_iff in Hrs as [Hr Hrs].
  apply negb_true_iff in Hr.
  cbn [handle_all fold_left]. fold (handle_all rs (handle r w)).
  rewrite (IH _ Hrs). now apply handle_read_cloud_costs.
Qed.

(** C7: as long as no write has been handled since the process started,
    whatever else has happened, [GET /cloud-costs] returns the seven sample
    records, January to July in that order, with costs 65, 59, 80, 81, 56,
    55 and 40. *)
Theorem get_cloud_costs_before_any_write (rs : list request) :
  forallb (fun r => negb (is_write r)) rs = true ->
  exists rows,
    fst (get_cloud_costs (handle_all rs startup)) = Returns rows
    /\ List.length rows = 7%nat
    /\ map month rows
       = ["January"; "February"; "March"; "April"; "May"; "June"; "July"]
    /\ map cost rows
       = [Int 65; Int 59; Int 80; Int 81; Int 56; Int 55; Int 40].
Proof.
  intros Hrs. exists sample_cloud_costs. split; [|repeat split].
  unfold get_cloud_costs, gets. cbn [fst].
  now rewrite (handle_all_reads_cloud_costs rs startup Hrs).
Qed.

Lemma get_cloud_costs_before_any_write_witness :
  exists rows,
    fst (get_cloud_costs startup) = Returns rows
    /\ List.length rows = 7%nat
    /\ map month rows
       = ["January"; "February"; "March"; "April"; "May"; "June"; "July"]
    /\ map cost rows
       = [Int 65; Int 59; Int 80; Int 81; Int 56; Int 55; Int 40].
Proof.
  apply (get_cloud_costs_before_any_write []). reflexivity.
Defined.

(** * Further properties *)

(** ** The registry *)

Lemma set_active_connections_same w :
  set_active_connections (active_connections w) w = w.
Proof. now destruct w. Qed.

Lemma list_remove_split x l :
  In x l ->
  exists l1 l2,
    l = l1 ++ x :: l2 /\ ~ In x l1 /\ list_remove x l = Some (l1 ++ l2).
Proof.
  induction l as [|y l IH]; intros Hin; [destruct Hin|].
  cbn [list_remove]. destruct (Nat.eqb_spec y x) as [->|Hne].
  - exists [], l. repeat split. intros [].
  - destruct Hin as [Heq|Hin]; [contradiction|].
    destruct (IH Hin) as (l1 & l2 & -> & Hfresh & ->).
    exists (y :: l1), l2. repeat split.
    intros [Heq|Hin1]; [contradiction | now apply Hfresh].
Qed.

Lemma list_remove_keeps x y l l' :
  list_remove x l = Some l' -> y <> x -> In y l -> In y l'.
Proof.
  revert l'. induction l as [|z l IH]; intros l' Hrm Hne Hin; [destruct Hin|].
  cbn [list_remove] in Hrm. destruct (Nat.eqb_spec z x) as [->|Hzx].
  - injection Hrm as <-. destruct Hin as [Heq|Hin]; [congruence | exact Hin].
  - destruct (list_remove x l) as [l0|] eqn:Hl; [|discriminate].
    injection Hrm as <-. destruct Hin as [->|Hin]; [now left|].
    right. now apply IH.
Qed.

Lemma disconnect_connected ws w :
  ~ In ws (active_connections w) ->
  disconnect ws (connected ws w) = (Returns tt, set_accepted (ws :: accepted w) w).
Proof.
  intros Hfresh. unfold disconnect, connected.
  cbn [active_connections set_active_connections set_accepted].
  rewrite (list_remove_first ws (active_connections w) [] Hfresh), app_nil_r.
  reflexivity.
Qed.

(** X1: a websocket that has not been accepted or registered before and
    whose peer is there can be registered and unregistered again; the
    datasets, the registry and what has been sent are then as they were
    before, and the one thing that has changed is that the websocket has
    been accepted. *)
Theorem connect_then_disconnect ws w :
  up w ws ->
  is_accepted ws w = false ->
  ~ In ws (active_connections w) ->
  (connect ws ;; disconnect ws) w
  = (Returns tt, set_accepted (ws :: accepted w) w).
Proof.
  intros Hup Hnew Hfresh. rewrite run_bind, (connect_up ws w Hup Hnew).
  now apply disconnect_connected.
Qed.

(** The websocket is not as new as it was: it cannot be registered a
    second time. *)
Lemma reconnect_refused ws w :
  up w ws ->
  is_accepted ws w = false ->
  ~ In ws (active_connections w) ->
  (connect ws ;; disconnect ws ;; connect ws) w
  = (Raises (HandshakeError ws), set_accepted (ws :: accepted w) w).
Proof.
  intros Hup Hnew Hfresh.
  rewrite run_bind, (connect_up ws w Hup Hnew).
  rewrite run_bind, (disconnect_connected ws w Hfresh).
  apply connect_accepted. unfold is_accepted. cbn. now rewrite Nat.eqb_refl.
Qed.

Lemma connect_then_disconnect_witness :
  (connect 4 ;; disconnect 4) startup
  = (Returns tt, set_accepted (4 :: accepted startup) startup).
Proof.
  apply (connect_then_disconnect 4 startup).
  - reflexivity.
  - reflexivity.
  - simpl. intros [].
Defined.

(** X2: [disconnect] of a registered websocket takes out its first entry
    and nothing else: the entries before and after it stay, in their
    order. *)
Theorem disconnect_removes_first_entry ws w :
  In ws (active_connections w) ->
  exists before after,
    active_connections w = before ++ ws :: after
    /\ ~ In ws before
    /\ disconnect ws w = (Returns tt, set_active_connections (before ++ after) w).
Proof.
  intros Hin.
  destruct (list_remove_split ws (active_connections w) Hin)
    as (l1 & l2 & Hsplit & Hfresh & Hrm).
  exists l1, l2. repeat split; try assumption.
  unfold disconnect. now rewrite Hrm.
Qed.

Lemma disconnect_removes_first_entry_witness :
  exists before after,
    active_connections (handle_all [WsConnect 1; WsConnect 2; WsConnect 1] startup)
    = before ++ 1 :: after
    /\ ~ In 1 before
    /\ disconnect 1 (handle_all [WsConnect 1; WsConnect 2; WsConnect 1] startup)
       = (Returns tt,
          set_active_connections (before ++ after)
            (handle_all [WsConnect 1; WsConnect 2; WsConnect 1] startup)).
Proof.
  apply (disconnect_removes_first_entry 1
           (handle_all [WsConnect 1; WsConnect 2; WsConnect 1] startup)).
  simpl. now left.
Defined.

Lemma count_occ_app_le (l l' : list WebSocket) ws :
  count_occ Nat.eq_dec l ws <= count_occ Nat.eq_dec (l ++ l') ws.
Proof. rewrite count_occ_app. apply Nat.le_add_r. Qed.

(** X3: whatever the outcome, [broadcast] adds to the trace nothing but
    copies of its message, and a websocket is sent at most as many copies
    as it has entries in the registry; one that is not registered is sent
    none. *)
Theorem broadcast_only_to_registered m w :
  exists es,
    snd (broadcast m w) = emit es w
    /\ Forall (fun e => exists c, e = Sent c m) es
    /\ (forall ws, sends_to ws es <= count_occ Nat.eq_dec (active_connections w) ws)
    /\ (forall ws, ~ In ws (active_connections w) -> sends_to ws es = 0).
Proof.
  destruct (first_failure_split w (active_connections w))
    as (pre & post & Hconns & Hpre & Hpost).
  exists (deliveries pre m).
  rewrite (broadcast_split m w pre post Hconns Hpre Hpost). cbn [snd].
  assert (Hle : forall ws, sends_to ws (deliveries pre m)
                           <= count_occ Nat.eq_dec (active_connections w) ws).
  { intros ws. rewrite sends_to_deliveries, Hconns. apply count_occ_app_le. }
  repeat split.
  - unfold deliveries. apply Forall_forall. intros e He.
    apply in_map_iff in He as (c & <- & _). now exists c.
  - exact Hle.
  - intros ws Hfresh. specialize (Hle ws).
    apply (count_occ_not_In Nat.eq_dec) in Hfresh. rewrite Hfresh in Hle.
    now apply Nat.le_0_r.
Qed.

(** ** [websocket_endpoint] *)

(** X4: a run of [websocket_endpoint] for a websocket that has not been
    accepted or registered before and whose peer is there.  Texts of the
    peer change nothing.  When the peer closes, the run ends with the
    websocket unregistered again.  When the peer sends a binary frame,
    the run ends in [KeyError] and the websocket stays registered.  As
    long as neither has happened the websocket is the last entry of the
    registry. *)
Theorem websocket_endpoint_session ws script w :
  up w ws ->
  is_accepted ws w = false ->
  ~ In ws (active_connections w) ->
  websocket_endpoint ws script w
  = match receive_loop script with
    | RaisedWebSocketDisconnect =>
        (Returns Closed, set_accepted (ws :: accepted w) w)
    | RaisedKeyError => (Raises KeyError, connected ws w)
    | StillWaiting => (Returns Waiting, connected ws w)
    end.
Proof.
  intros Hup Hnew Hfresh. unfold websocket_endpoint.
  rewrite run_bind, (connect_up ws w Hup Hnew).
  destruct (receive_loop script); try reflexivity.
  rewrite run_bind, (disconnect_connected ws w Hfresh). reflexivity.
Qed.

Lemma websocket_endpoint_session_witness :
  websocket_endpoint 5 [Text "ping"; Bytes; WebSocketDisconnect] startup
  = (Raises KeyError, connected 5 startup).
Proof.
  apply (websocket_endpoint_session 5
           [Text "ping"; Bytes; WebSocketDisconnect] startup).
  - reflexivity.
  - reflexivity.
  - simpl. intros [].
Defined.



(** ** What a request can change *)

Lemma connect_state ws w :
  snd (connect ws w)
  = if is_gone ws w || is_accepted ws w then w else connected ws w.
Proof.
  unfold connect, accept. rewrite run_bind.
  now destruct (is_gone ws w || is_accepted ws w).
Qed.

Lemma disconnect_state ws w :
  snd (disconnect ws w)
  = match list_remove ws (active_connections w) with
    | Some l => set_active_connections l w
    | None => w
    end.
Proof.
  unfold disconnect. now destruct (list_remove ws (active_connections w)).
Qed.

(** Every request but a registry event leaves the state as it was up to
    the two written datasets and the trace. *)
Lemma handle_http r w :
  is_registry_event r = false ->
  daily_costs (handle r w) = daily_costs w
  /\ resources (handle r w) = resources w
  /\ active_connections (handle r w) = active_connections w
  /\ gone (handle r w) = match r with PeerLeaves ws => ws :: gone w | _ => gone w end.
Proof.
  destruct r; cbn [is_registry_event handle]; intros Hr; try discriminate;
    try (repeat split; fail).
  - now rewrite estimate_cost_pure.
  - now rewrite get_filtered_costs_pure.
  - destruct (update_cloud_costs_state updated_costs w) as (sends & -> & _).
    repeat split.
  - destruct (update_service_usage_state updated_usage w) as (sends & -> & _).
    repeat split.
Qed.

Lemma handle_registry_event r w :
  is_registry_event r = true ->
  cloud_costs (handle r w) = cloud_costs w
  /\ service_usage (handle r w) = service_usage w
  /\ daily_costs (handle r w) = daily_costs w
  /\ resources (handle r w) = resources w
  /\ gone (handle r w) = gone w
  /\ trace (handle r w) = trace w.
Proof.
  destruct r; cbn [is_registry_event handle]; intros Hr; try discriminate.
  - rewrite connect_state. now destruct (is_gone ws w || is_accepted ws w).
  - rewrite disconnect_state. now destruct (list_remove ws (active_connections w)).
Qed.

Lemma handle_gone r w c : is_gone c w = true -> is_gone c (handle r w) = true.
Proof.
  unfold is_gone. intros Hc.
  destruct (is_registry_event r) eqn:Hr.
  - destruct (handle_registry_event r w Hr) as (_ & _ & _ & _ & -> & _). exact Hc.
  - destruct (handle_http r w Hr) as (_ & _ & _ & ->).
    destruct r; try exact Hc. cbn. rewrite Hc. apply orb_true_r.
Qed.

Lemma handle_keeps_registered r w c :
  is_disconnect_of c r = false ->
  In c (active_connections w) ->
  In c (active_connections (handle r w)).
Proof.
  intros Hr Hin. destruct (is_registry_event r) eqn:Hev.
  - destruct r; try discriminate; cbn [handle].
    + rewrite connect_state.
      destruct (is_gone ws w || is_accepted ws w); [exact Hin|].
      cbn. apply in_or_app. now left.
    + rewrite disconnect_state.
      destruct (list_remove ws (active_connections w)) as [l|] eqn:Hl; [|exact Hin].
      cbn. cbn in Hr. apply Nat.eqb_neq in Hr.
      apply (list_remove_keeps ws c (active_connections w) l Hl); [congruence | exact Hin].
  - destruct (handle_http r w Hev) as (_ & _ & -> & _). exact Hin.
Qed.

Lemma handle_all_cons r rs w : handle_all (r :: rs) w = handle_all rs (handle r w).
Proof. reflexivity. Qed.

(** X6: no request writes [daily_costs] or [resources]: whatever has been
    handled since the process started, [GET /daily-costs] and
    [GET /resources] return the sample data. *)
Theorem daily_costs_and_resources_never_change (rs : list request) :
  fst (get_daily_costs (handle_all rs startup)) = Returns sample_daily_costs
  /\ fst (get_resources (handle_all rs startup)) = Returns sample_resources.
Proof.
  unfold get_daily_costs, get_resources, gets. cbn [fst].
  change sample_daily_costs with (daily_costs startup).
  change sample_resources with (resources startup).
  generalize startup as w. induction rs as [|r rs IH]; intros w; [now split|].
  rewrite handle_all_cons. destruct (IH (handle r w)) as (Hd & Hr).
  injection Hd as Hd. injection Hr as Hr. rewrite Hd, Hr.
  destruct (is_registry_event r) eqn:Hev.
  - destruct (handle_registry_event r w Hev) as (_ & _ & -> & -> & _). now split.
  - destruct (handle_http r w Hev) as (-> & -> & _). now split.
Qed.

Lemma handle_read_trace r w : is_write r = false -> trace (handle r w) = trace w.
Proof.
  destruct r; cbn [is_write handle]; intros Hr; try discriminate; try reflexivity.
  - now rewrite estimate_cost_pure.
  - now rewrite get_filtered_costs_pure.
  - rewrite connect_state. now destruct (is_gone ws w || is_accepted ws w).
  - rewrite disconnect_state. now destruct (list_remove ws (active_connections w)).
Qed.

(** X7: only the write endpoints push anything to a listener: a sequence of
    requests without a write leaves the trace of assignments and sent
    messages as it was. *)
Theorem reads_send_nothing (rs : list request) (w : World) :
  forallb (fun r => negb (is_write r)) rs = true ->
  trace (handle_all rs w) = trace w.
Proof.
  revert w. induction rs as [|r rs IH]; intros w Hrs; [reflexivity|].
  cbn [forallb] in Hrs. apply andb_true_iff in Hrs as [Hr Hrs].
  apply negb_true_iff in Hr.
  rewrite handle_all_cons, (IH _ Hrs). now apply handle_read_trace.
Qed.

Lemma reads_send_nothing_witness :
  trace (handle_all [WsConnect 1; GetCloudCosts; GetFilteredCosts "x" "y";
                     EstimateCost (CostEstimationParams.mk 5 24 30 one_tenth);
                     PeerLeaves 1; WsDisconnect 1] startup)
  = trace startup.
Proof.
  apply (reads_send_nothing
           [WsConnect 1; GetCloudCosts; GetFilteredCosts "x" "y";
            EstimateCost (CostEstimationParams.mk 5 24 30 one_tenth);
            PeerLeaves 1; WsDisconnect 1] startup).
  reflexivity.
Defined.

(** X8: the registry changes through [connect] and [disconnect] only.  No
    HTTP request changes it, and neither does a peer that goes away: a
    write whose broadcast fails on a listener leaves that listener
    registered. *)
Theorem registry_changes_only_through_manager (rs : list request) (w : World) :
  forallb (fun r => negb (is_registry_event r)) rs = true ->
  active_connections (handle_all rs w) = active_connections w.
Proof.
  revert w. induction rs as [|r rs IH]; intros w Hrs; [reflexivity|].
  cbn [forallb] in Hrs. apply andb_true_iff in Hrs as [Hr Hrs].
  apply negb_true_iff in Hr.
  rewrite handle_all_cons, (IH _ Hrs).
  now destruct (handle_http r w Hr) as (_ & _ & -> & _).
Qed.

Lemma registry_changes_only_through_manager_witness :
  active_connections
    (handle_all [PeerLeaves 1; UpdateCloudCosts []; GetResources]
                (handle_all [WsConnect 1; WsConnect 2] startup))
  = active_connections (handle_all [WsConnect 1; WsConnect 2] startup).
Proof.
  apply (registry_changes_only_through_manager
           [PeerLeaves 1; UpdateCloudCosts []; GetResources]
           (handle_all [WsConnect 1; WsConnect 2] startup)).
  reflexivity.
Defined.

Lemma handle_all_keeps_registered c rs : forall w,
  forallb (fun r => negb (is_disconnect_of c r)) rs = true ->
  In c (active_connections w) ->
  In c (active_connections (handle_all rs w)).
Proof.
  induction rs as [|r rs IH]; intros w Hrs Hin; [exact Hin|].
  cbn [forallb] in Hrs. apply andb_true_iff in Hrs as [Hr Hrs].
  apply negb_true_iff in Hr.
  rewrite handle_all_cons. apply (IH _ Hrs). now apply handle_keeps_registered.
Qed.

Lemma handle_all_gone c rs : forall w,
  is_gone c w = true -> is_gone c (handle_all rs w) = true.
Proof.
  induction rs as [|r rs IH]; intros w Hc; [exact Hc|].
  rewrite handle_all_cons. apply IH. now apply handle_gone.
Qed.

(** X9: a registered websocket stays registered until it is unregistered
    itself, whatever else is handled in between, so the [disconnect] that
    ends its [websocket_endpoint] returns and does not raise
    [ValueError]. *)
Theorem own_disconnect_succeeds ws (rs : list request) (w : World) :
  In ws (active_connections w) ->
  forallb (fun r => negb (is_disconnect_of ws r)) rs = true ->
  In ws (active_connections (handle_all rs w))
  /\ fst (disconnect ws (handle_all rs w)) = Returns tt.
Proof.
  intros Hin Hrs.
  pose proof (handle_all_keeps_registered ws rs w Hrs Hin) as Hstill.
  split; [exact Hstill|].
  destruct (disconnect_present ws _ Hstill) as (l & -> & _). reflexivity.
Qed.

Lemma own_disconnect_succeeds_witness :
  In 1 (active_connections
          (handle_all [WsConnect 2; UpdateCloudCosts []; WsDisconnect 2; PeerLeaves 1]
                      (handle_all [WsConnect 1] startup)))
  /\ fst (disconnect 1
            (handle_all [WsConnect 2; UpdateCloudCosts []; WsDisconnect 2; PeerLeaves 1]
                        (handle_all [WsConnect 1] startup)))
     = Returns tt.
Proof.
  apply (own_disconnect_succeeds 1
           [WsConnect 2; UpdateCloudCosts []; WsDisconnect 2; PeerLeaves 1]
           (handle_all [WsConnect 1] startup)).
  - simpl. now left.
  - reflexivity.
Defined.

(** ** A listener whose peer is gone *)

Lemma broadcast_dead_listener m w c :
  In c (active_connections w) ->
  is_gone c w = true ->
  exists c',
    In c' (active_connections w) /\ is_gone c' w = true
    /\ fst (broadcast m w) = Raises (SendError c').
Proof.
  intros Hin Hgone.
  destruct (first_failure_split w (active_connections w))
    as (pre & post & Hconns & Hpre & Hpost).
  rewrite (broadcast_split m w pre post Hconns Hpre Hpost).
  destruct post as [|c' post].
  - exfalso. rewrite app_nil_r in Hconns. rewrite Hconns in Hin.
    rewrite Forall_forall in Hpre. specialize (Hpre c Hin).
    unfold up in Hpre. congruence.
  - exists c'. repeat split; [|exact Hpost].
    rewrite Hconns. apply in_or_app. right. now left.
Qed.

(** X10: once the peer of a registered websocket is gone, every call of a
    write endpoint raises the send error of a dead listener, for as long
    as that websocket has not been unregistered; each such call has
    nevertheless replaced its dataset. *)
Theorem dead_listener_fails_every_write c (rs : list request) (w : World)
        (W : list CloudCost.t) (U : ServiceUsage.t) :
  In c (active_connections w) ->
  is_gone c w = true ->
  forallb (fun r => negb (is_disconnect_of c r)) rs = true ->
  let w' := handle_all rs w in
  (exists c', is_gone c' w' = true
              /\ fst (update_cloud_costs W w') = Raises (SendError c'))
  /\ cloud_costs (snd (update_cloud_costs W w')) = map CloudCost_dict W
  /\ (exists c', is_gone c' w' = true
                 /\ fst (update_service_usage U w') = Raises (SendError c'))
  /\ service_usage (snd (update_service_usage U w')) = ServiceUsage_dict U.
Proof.
  intros Hin Hgone Hrs w'.
  assert (Hin' : In c (active_connections w'))
    by now apply handle_all_keeps_registered.
  assert (Hgone' : is_gone c w' = true) by now apply handle_all_gone.
  split; [|split; [|split]].
  - rewrite update_cloud_costs_unfold. cbv zeta.
    destruct (broadcast_dead_listener
                (cloud_costs_message (map CloudCost_dict W))
                (set_cloud_costs (map CloudCost_dict W) w') c Hin' Hgone')
      as (c' & _ & Hc' & Hraise).
    exists c'. split; [exact Hc'|].
    destruct (broadcast _ _) as [[[]|e] w2]; cbn in Hraise |- *;
      [discriminate | now injection Hraise as ->].
  - destruct (update_cloud_costs_state W w') as (sends & -> & _). reflexivity.
  - rewrite update_service_usage_unfold. cbv zeta.
    destruct (broadcast_dead_listener
                (service_usage_message (ServiceUsage_dict U))
                (set_service_usage (ServiceUsage_dict U) w') c Hin' Hgone')
      as (c' & _ & Hc' & Hraise).
    exists c'. split; [exact Hc'|].
    destruct (broadcast _ _) as [[[]|e] w2]; cbn in Hraise |- *;
      [discriminate | now injection Hraise as ->].
  - destruct (update_service_usage_state U w') as (sends & -> & _). reflexivity.
Qed.

Lemma dead_listener_fails_every_write_witness :
  let w' := handle_all [UpdateCloudCosts []; WsConnect 3] two_listeners_first_gone in
  exists c', is_gone c' w' = true
             /\ fst (update_cloud_costs [CloudCost.mk "May" one_tenth] w')
                = Raises (SendError c').
Proof.
  cbv zeta.
  destruct (dead_listener_fails_every_write 1
              [UpdateCloudCosts []; WsConnect 3] two_listeners_first_gone
              [CloudCost.mk "May" one_tenth] (ServiceUsage.mk [] [])) as (H & _).
  - simpl. now left.
  - reflexivity.
  - reflexivity.
  - exact H.
Defined.

(** ** The written datasets *)

Lemma handle_cloud_costs r w :
  is_cloud_costs_write r = false -> cloud_costs (handle r w) = cloud_costs w.
Proof.
  intros Hr. destruct (is_write r) eqn:Hw.
  - destruct r; try discriminate. cbn [handle].
    now destruct (update_service_usage_state updated_usage w) as (sends & -> & _).
  - now apply handle_read_cloud_costs.
Qed.

Lemma handle_service_usage r w :
  is_service_usage_write r = false -> service_usage (handle r w) = service_usage w.
Proof.
  intros Hr. destruct (is_registry_event r) eqn:Hev.
  - now destruct (handle_registry_event r w Hev) as (_ & -> & _).
  - destruct r; try discriminate; cbn [handle]; try reflexivity.
    + now rewrite estimate_cost_pure.
    + now rewrite get_filtered_costs_pure.
    + now destruct (update_cloud_costs_state updated_costs w) as (sends & -> & _).
Qed.

(** X11: what [PUT /update-cloud-costs] stored is what [GET /cloud-costs]
    returns until the next [PUT /update-cloud-costs], whatever else is
    handled in between, a write to the other dataset included, and
    whether or not the broadcast of the write went through. *)
Theorem cloud_costs_persist (W : list CloudCost.t) (rs : list request) (w : World) :
  forallb (fun r => negb (is_cloud_costs_write r)) rs = true ->
  fst (get_cloud_costs (handle_all rs (snd (update_cloud_costs W w))))
  = Returns (map CloudCost_dict W).
Proof.
  intros Hrs. unfold get_cloud_costs, gets. cbn [fst]. f_equal.
  destruct (update_cloud_costs_state W w) as (sends & -> & _).
  change (map CloudCost_dict W)
    with (cloud_costs (emit sends (set_cloud_costs (map CloudCost_dict W) w))) at 2.
  generalize (emit sends (set_cloud_costs (map CloudCost_dict W) w)) as w0.
  induction rs as [|r rs IH]; intros w0; [reflexivity|].
  cbn [forallb] in Hrs. apply andb_true_iff in Hrs as [Hr Hrs].
  apply negb_true_iff in Hr.
  rewrite handle_all_cons, (IH Hrs). now apply handle_cloud_costs.
Qed.

Lemma cloud_costs_persist_witness :
  fst (get_cloud_costs
         (handle_all [WsConnect 1; UpdateServiceUsage (ServiceUsage.mk [] []);
                      GetFilteredCosts "2023-02-01" "2023-04-30"]
                     (snd (update_cloud_costs [CloudCost.mk "May" one_tenth]
                                              two_listeners_first_gone))))
  = Returns (map CloudCost_dict [CloudCost.mk "May" one_tenth]).
Proof.
  apply (cloud_costs_persist [CloudCost.mk "May" one_tenth]
           [WsConnect 1; UpdateServiceUsage (ServiceUsage.mk [] []);
            GetFilteredCosts "2023-02-01" "2023-04-30"]
           two_listeners_first_gone).
  reflexivity.
Defined.

(** X12: what [PUT /update-service-usage] stored is what
    [GET /service-usage] returns until the next [PUT /update-service-usage],
    whatever else is handled in between and whether or not the broadcast
    of the write went through. *)
Theorem service_usage_persist (U : ServiceUsage.t) (rs : list request) (w : World) :
  forallb (fun r => negb (is_service_usage_write r)) rs = true ->
  fst (get_service_usage (handle_all rs (snd (update_service_usage U w))))
  = Returns (ServiceUsage_dict U).
Proof.
  intros Hrs. unfold get_service_usage, gets. cbn [fst]. f_equal.
  destruct (update_service_usage_state U w) as (sends & -> & _).
  change (ServiceUsage_dict U)
    with (service_usage (emit sends (set_service_usage (ServiceUsage_dict U) w))) at 2.
  generalize (emit sends (set_service_usage (ServiceUsage_dict U) w)) as w0.
  induction rs as [|r rs IH]; intros w0; [reflexivity|].
  cbn [forallb] in Hrs. apply andb_true_iff in Hrs as [Hr Hrs].
  apply negb_true_iff in Hr.
  rewrite handle_all_cons, (IH Hrs). now apply handle_service_usage.
Qed.

Lemma service_usage_persist_witness :
  fst (get_service_usage
         (handle_all [UpdateCloudCosts []; GetServiceUsage; WsConnect 9]
                     (snd (update_service_usage (ServiceUsage.mk ["Compute"] [one_tenth])
                                                startup))))
  = Returns (ServiceUsage_dict (ServiceUsage.mk ["Compute"] [one_tenth])).
Proof.
  apply (service_usage_persist (ServiceUsage.mk ["Compute"] [one_tenth])
           [UpdateCloudCosts []; GetServiceUsage; WsConnect 9] startup).
  reflexivity.
Defined.

(** X13: the two write endpoints do not interfere: called in either order
    they leave the same datasets, the same registry and the same set of
    gone peers; only the order of the messages differs. *)
Theorem writes_commute (W : list CloudCost.t) (U : ServiceUsage.t) (w : World) :
  same_but_trace
    (snd (update_service_usage U (snd (update_cloud_costs W w))))
    (snd (update_cloud_costs W (snd (update_service_usage U w)))).
Proof.
  destruct (update_cloud_costs_state W w) as (s1 & -> & _).
  destruct (update_service_usage_state U w) as (s2 & -> & _).
  destruct (update_service_usage_state U
              (emit s1 (set_cloud_costs (map CloudCost_dict W) w))) as (s3 & -> & _).
  destruct (update_cloud_costs_state W
              (emit s2 (set_service_usage (ServiceUsage_dict U) w))) as (s4 & -> & _).
  repeat split.
Qed.

(** ** [get_filtered_costs]: every outcome *)

Lemma strptime_ymd_raises s e :
  DateTime.strptime_ymd s = Raises e -> e = ValueError.
Proof.
  unfold DateTime.strptime_ymd.
  destruct (DateTime.split_dash (DateTime.decode s)) as [[ys rest]|]; [|now intros [= <-]].
  destruct (DateTime.split_dash rest) as [[ms ds]|]; [|now intros [= <-]].
  destruct (DateTime.year_field ys) as [y|]; [|now intros [= <-]].
  destruct (DateTime.month_field ms) as [m|]; [|now intros [= <-]].
  destruct (DateTime.day_field ds) as [d|]; [|now intros [= <-]].
  destruct (_ && _); [discriminate | now intros [= <-]].
Qed.

Lemma strptime_B_raises s e :
  DateTime.strptime_B s = Raises e -> e = ValueError.
Proof.
  unfold DateTime.strptime_B.
  destruct (DateTime.index_of _ _ _); [discriminate | now intros [= <-]].
Qed.

Lemma in_range_parses start end_ c :
  in_range start end_ c = true -> month_parses c = true.
Proof.
  unfold in_range, month_parses.
  now destruct (DateTime.strptime_B (month c)).
Qed.

(** The comprehension, in closed form. *)
Lemma comprehension_in_range start end_ (l : list cost_dict) (w : World) :
  comprehension l (fun cost =>
    d <- lift (DateTime.strptime_B (month cost)) ;;
    ret (DateTime.le start d && DateTime.le d end_)) w
  = (if forallb month_parses l
     then Returns (filter (in_range start end_) l)
     else Raises ValueError, w).
Proof.
  induction l as [|c l IH]; [reflexivity|].
  cbn [comprehension forallb filter]. rewrite run_bind, run_bind.
  unfold lift at 1. unfold month_parses at 1. unfold in_range at 1.
  destruct (DateTime.strptime_B (month c)) as [d|e] eqn:Hd.
  - change (@ret Py Monad_Py bool (DateTime.le start d && DateTime.le d end_) w)
      with (Returns (DateTime.le start d && DateTime.le d end_), w).
    cbv iota beta. rewrite run_bind, IH. cbn [andb].
    now destruct (forallb month_parses l).
  - now rewrite (strptime_B_raises _ e Hd).
Qed.

Lemma get_filtered_costs_run start_date end_date w :
  get_filtered_costs start_date end_date w
  = (match DateTime.strptime_ymd start_date, DateTime.strptime_ymd end_date with
     | Returns start, Returns end_ =>
         if forallb month_parses (cloud_costs w)
         then Returns (filter (in_range start end_) (cloud_costs w))
         else Raises ValueError
     | _, _ => Raises ValueError
     end, w).
Proof.
  unfold get_filtered_costs. rewrite run_bind. unfold lift at 1.
  destruct (DateTime.strptime_ymd start_date) as [start|e] eqn:Hs.
  - rewrite run_bind. unfold lift at 1.
    destruct (DateTime.strptime_ymd end_date) as [end_|e] eqn:He.
    + rewrite run_bind. unfold gets at 1. apply comprehension_in_range.
    + now rewrite (strptime_ymd_raises _ e He).
  - rewrite (strptime_ymd_raises _ e Hs). now destruct (DateTime.strptime_ymd end_date).
Qed.

(** X14: whenever [get_filtered_costs] returns, both boundaries were
    dates, and the rows returned are stored records, in stored order,
    namely those whose month, read as a day of the year 1900, lies between
    the boundaries; every stored month was a month name. *)
Theorem filtered_costs_returns_filter start_date end_date w rows :
  fst (get_filtered_costs start_date end_date w) = Returns rows ->
  exists start end_,
    DateTime.strptime_ymd start_date = Returns start
    /\ DateTime.strptime_ymd end_date = Returns end_
    /\ rows = filter (in_range start end_) (cloud_costs w)
    /\ (forall c, In c rows -> In c (cloud_costs w))
    /\ forallb month_parses (cloud_costs w) = true.
Proof.
  rewrite get_filtered_costs_run. cbn [fst].
  destruct (DateTime.strptime_ymd start_date) as [start|]; [|discriminate].
  destruct (DateTime.strptime_ymd end_date) as [end_|]; [|discriminate].
  destruct (forallb month_parses (cloud_costs w)); [|discriminate].
  intros [= <-]. exists start, end_. repeat split.
  intros c Hc. now apply filter_In in Hc.
Qed.

Lemma filtered_costs_returns_filter_witness :
  exists start end_,
    DateTime.strptime_ymd "1900-02-01" = Returns start
    /\ DateTime.strptime_ymd "1900-04-30" = Returns end_
    /\ [CostDict "February" (Int 59); CostDict "March" (Int 80);
        CostDict "April" (Int 81)]
       = filter (in_range start end_) (cloud_costs startup)
    /\ (forall c, In c [CostDict "February" (Int 59); CostDict "March" (Int 80);
                        CostDict "April" (Int 81)] -> In c (cloud_costs startup))
    /\ forallb month_parses (cloud_costs startup) = true.
Proof.
  apply (filtered_costs_returns_filter "1900-02-01" "1900-04-30" startup).
  vm_compute. reflexivity.
Defined.

(** X15: one stored record whose month is not a month name makes the
    filtered read raise [ValueError], whatever the boundaries and however
    many other records are in range; no partial list is returned and the
    state is as before. *)
Theorem filtered_costs_bad_month start_date end_date w c :
  In c (cloud_costs w) ->
  month_parses c = false ->
  get_filtered_costs start_date end_date w = (Raises ValueError, w).
Proof.
  intros Hin Hbad. rewrite get_filtered_costs_run.
  assert (Hall : forallb month_parses (cloud_costs w) = false).
  { destruct (forallb month_parses (cloud_costs w)) eqn:Hall; [|reflexivity].
    rewrite forallb_forall in Hall. rewrite (Hall c Hin) in Hbad. discriminate. }
  rewrite Hall.
  destruct (DateTime.strptime_ymd start_date); [|reflexivity].
  now destruct (DateTime.strptime_ymd end_date).
Qed.

Lemma filtered_costs_bad_month_witness :
  get_filtered_costs "1900-01-01" "1900-12-31"
    (snd (update_cloud_costs [CloudCost.mk "March" one_tenth;
                              CloudCost.mk "2023-03" one_tenth] startup))
  = (Raises ValueError,
     snd (update_cloud_costs [CloudCost.mk "March" one_tenth;
                              CloudCost.mk "2023-03" one_tenth] startup)).
Proof.
  apply (filtered_costs_bad_month "1900-01-01" "1900-12-31"
           (snd (update_cloud_costs [CloudCost.mk "March" one_tenth;
                                     CloudCost.mk "2023-03" one_tenth] startup))
           (CostDict "2023-03" (Float one_tenth))).
  - simpl. right. now left.
  - reflexivity.
Defined.

(** X16: an ASCII boundary that [strptime] does not read as a date makes
    the filtered read raise [ValueError], whatever the other boundary is
    and whatever is stored, an empty dataset included; the state is as
    before. *)
Theorem filtered_costs_bad_date start_date end_date w :
  (is_ascii start_date = true
   /\ exists e, DateTime.strptime_ymd start_date = Raises e)
  \/ (is_ascii end_date = true
      /\ exists e, DateTime.strptime_ymd end_date = Raises e) ->
  get_filtered_costs start_date end_date w = (Raises ValueError, w).
Proof.
  intros H. rewrite get_filtered_costs_run.
  destruct H as [(_ & e & ->)|(_ & e & ->)]; [reflexivity|].
  now destruct (DateTime.strptime_ymd start_date).
Qed.

Lemma filtered_costs_bad_date_witness :
  get_filtered_costs "2023-02-30" "2023-04-30" startup = (Raises ValueError, startup).
Proof.
  apply (filtered_costs_bad_date "2023-02-30" "2023-04-30" startup).
  left. split; [reflexivity|]. exists ValueError. reflexivity.
Defined.

Lemma le_trans a b c :
  DateTime.le a b = true -> DateTime.le b c = true -> DateTime.le a c = true.
Proof.
  unfold DateTime.le.
  destruct (Z.ltb_spec (DateTime.year a) (DateTime.year b));
  destruct (Z.ltb_spec (DateTime.year b) (DateTime.year a));
  destruct (Z.ltb_spec (DateTime.month a) (DateTime.month b));
  destruct (Z.ltb_spec (DateTime.month b) (DateTime.month a));
  destruct (Z.ltb_spec (DateTime.year b) (DateTime.year c));
  destruct (Z.ltb_spec (DateTime.year c) (DateTime.year b));
  destruct (Z.ltb_spec (DateTime.month b) (DateTime.month c));
  destruct (Z.ltb_spec (DateTime.month c) (DateTime.month b));
  destruct (Z.ltb_spec (DateTime.year a) (DateTime.year c));
  destruct (Z.ltb_spec (DateTime.year c) (DateTime.year a));
  destruct (Z.ltb_spec (DateTime.month a) (DateTime.month c));
  destruct (Z.ltb_spec (DateTime.month c) (DateTime.month a));
  rewrite ?Z.leb_le; intros; try discriminate; try reflexivity; try lia.
Qed.

(** X17: when the start boundary is a later date than the end boundary the
    filtered read returns no record: the empty list when every stored
    month is a month name, [ValueError] otherwise. *)
Theorem filtered_costs_inverted_range start_date end_date start end_ w :
  DateTime.strptime_ymd start_date = Returns start ->
  DateTime.strptime_ymd end_date = Returns end_ ->
  DateTime.le start end_ = false ->
  get_filtered_costs start_date end_date w
  = (if forallb month_parses (cloud_costs w) then Returns [] else Raises ValueError, w).
Proof.
  intros Hs He Hinv. rewrite get_filtered_costs_run, Hs, He.
  rewrite filter_none; [reflexivity|].
  intros c. unfold in_range.
  destruct (DateTime.strptime_B (month c)) as [d|]; [|reflexivity].
  destruct (DateTime.le start d) eqn:H1; [|reflexivity].
  destruct (DateTime.le d end_) eqn:H2; [|reflexivity].
  rewrite (le_trans start d end_ H1 H2) in Hinv. discriminate.
Qed.

Lemma filtered_costs_inverted_range_witness :
  get_filtered_costs "1900-04-30" "1900-02-01" startup = (Returns [], startup).
Proof.
  apply (filtered_costs_inverted_range "1900-04-30" "1900-02-01"
           (DateTime.mk 1900 4 30) (DateTime.mk 1900 2 1) startup);
    reflexivity.
Defined.

(** ** Writes and registrations that go through *)

(** X18: when the peer of every registered websocket is there,
    [PUT /update-cloud-costs] returns its success message, the dataset is
    replaced, and every websocket has been sent the new value once per
    registry entry it has, in registry order. *)
Theorem update_cloud_costs_notifies_all (W : list CloudCost.t) (w : World) :
  Forall (up w) (active_connections w) ->
  let v := map CloudCost_dict W in
  let sends := deliveries (active_connections w) (Message "cloud_costs" (CloudCosts v)) in
  update_cloud_costs W w
  = (Returns (Reply "Cloud costs updated successfully"),
     emit sends (set_cloud_costs v w))
  /\ forall ws, sends_to ws sends = count_occ Nat.eq_dec (active_connections w) ws.
Proof.
  intros Hall v sends. split.
  - rewrite update_cloud_costs_unfold. fold v. cbv zeta.
    rewrite (broadcast_split (cloud_costs_message v) (set_cloud_costs v w)
               (active_connections w) []);
      [reflexivity | now rewrite app_nil_r | exact Hall | exact I].
  - intros ws. apply sends_to_deliveries.
Qed.

Lemma update_cloud_costs_notifies_all_witness :
  update_cloud_costs [] (handle_all [WsConnect 1; WsConnect 2] startup)
  = (Returns (Reply "Cloud costs updated successfully"),
     emit (deliveries [1; 2] (Message "cloud_costs" (CloudCosts [])))
          (set_cloud_costs [] (handle_all [WsConnect 1; WsConnect 2] startup))).
Proof.
  apply (update_cloud_costs_notifies_all []
           (handle_all [WsConnect 1; WsConnect 2] startup)).
  simpl. repeat constructor.
Defined.

Lemma is_accepted_connected_other c c' w :
  c' <> c -> is_accepted c' (connected c w) = is_accepted c' w.
Proof.
  intros Hne. unfold is_accepted. cbn.
  now destruct (Nat.eqb_spec c' c) as [->|_].
Qed.

Lemma connect_all_up (l : list WebSocket) : forall w,
  Forall (up w) l ->
  NoDup l ->
  Forall (fun c => is_accepted c w = false) l ->
  active_connections (handle_all (map WsConnect l) w) = active_connections w ++ l
  /\ gone (handle_all (map WsConnect l) w) = gone w
  /\ trace (handle_all (map WsConnect l) w) = trace w.
Proof.
  induction l as [|c l IH]; intros w Hup Hnodup Hnew.
  - cbn. now rewrite app_nil_r.
  - inversion Hup as [|? ? Hc Hl]; subst.
    inversion Hnodup as [|? ? Hcl Hnd]; subst.
    inversion Hnew as [|? ? Hcnew Hlnew]; subst.
    cbn [map]. rewrite handle_all_cons. cbn [handle].
    rewrite (connect_up c w Hc Hcnew). cbn [snd].
    destruct (IH (connected c w)) as (Hconns & Hgone & Htrace).
    + exact Hl.
    + exact Hnd.
    + apply Forall_forall. intros c' Hc'.
      rewrite is_accepted_connected_other.
      * rewrite Forall_forall in Hlnew. now apply Hlnew.
      * intros ->. contradiction.
    + rewrite Hconns, Hgone, Htrace. cbn. now rewrite <- app_assoc.
Qed.

(** X19: listeners are served in the order they registered.  After the
    websockets of [l], all different, none accepted before and their
    peers there, have connected one after the other, the registry is the
    old one followed by [l], and, the old listeners being up too, a
    broadcast returns after writing the message to the old listeners and
    then to those of [l], in that order. *)
Theorem broadcast_in_registration_order (l : list WebSocket) m (w : World) :
  Forall (up w) (active_connections w) ->
  Forall (up w) l ->
  NoDup l ->
  Forall (fun c => is_accepted c w = false) l ->
  let w' := handle_all (map WsConnect l) w in
  active_connections w' = active_connections w ++ l
  /\ broadcast m w'
     = (Returns tt, emit (deliveries (active_connections w) m ++ deliveries l m) w').
Proof.
  intros Hold Hnew Hnodup Hfresh w'. subst w'.
  destruct (connect_all_up l w Hnew Hnodup Hfresh) as (Hconns & Hgone & _).
  split; [exact Hconns|].
  replace (deliveries (active_connections w) m ++ deliveries l m)
    with (deliveries (active_connections (handle_all (map WsConnect l) w)) m)
    by (rewrite Hconns; unfold deliveries; now rewrite map_app).
  apply (broadcast_split m _ (active_connections (handle_all (map WsConnect l) w)) []).
  - now rewrite app_nil_r.
  - rewrite Hconns. apply Forall_app. split.
    + eapply Forall_impl; [|exact Hold]. intros c Hc.
      unfold up, is_gone in *. now rewrite Hgone.
    + eapply Forall_impl; [|exact Hnew]. intros c Hc.
      unfold up, is_gone in *. now rewrite Hgone.
  - exact I.
Qed.

Lemma broadcast_in_registration_order_witness :
  active_connections (handle_all (map WsConnect [3; 1; 2]) startup)
  = active_connections startup ++ [3; 1; 2]
  /\ broadcast empty_update (handle_all (map WsConnect [3; 1; 2]) startup)
     = (Returns tt,
        emit (deliveries (active_connections startup) empty_update
              ++ deliveries [3; 1; 2] empty_update)
             (handle_all (map WsConnect [3; 1; 2]) startup)).
Proof.
  apply (broadcast_in_registration_order [3; 1; 2] empty_update startup).
  - simpl. constructor.
  - simpl. repeat constructor.
  - repeat constructor; simpl; intuition discriminate.
  - simpl. repeat constructor.
Defined.

(** ** The registry holds a websocket once *)

Lemma list_remove_incl x l l' y :
  list_remove x l = Some l' -> In y l' -> In y l.
Proof.
  revert l'. induction l as [|z l IH]; intros l' Hrm Hin; [discriminate|].
  cbn [list_remove] in Hrm. destruct (Nat.eqb z x).
  - injection Hrm as <-. now right.
  - destruct (list_remove x l) as [l0|]; [|discriminate].
    injection Hrm as <-. destruct Hin as [->|Hin]; [now left|].
    right. now apply (IH l0).
Qed.

Lemma list_remove_NoDup x l l' :
  list_remove x l = Some l' -> NoDup l -> NoDup l'.
Proof.
  revert l'. induction l as [|z l IH]; intros l' Hrm Hnd; [discriminate|].
  inversion Hnd as [|? ? Hz Hl]; subst.
  cbn [list_remove] in Hrm. destruct (Nat.eqb z x).
  - now injection Hrm as <-.
  - destruct (list_remove x l) as [l0|] eqn:Hl0; [|discriminate].
    injection Hrm as <-. constructor.
    + intros Hin. apply Hz. now apply (list_remove_incl x l l0).
    + now apply IH.
Qed.

(** Every registered websocket has been accepted, and none is registered
    twice. *)
Definition registry_ok (w : World) : Prop :=
  NoDup (active_connections w)
  /\ forall c, In c (active_connections w) -> is_accepted c w = true.

Lemma handle_http_accepted r w :
  is_registry_event r = false -> accepted (handle r w) = accepted w.
Proof.
  destruct r; cbn [is_registry_event handle]; intros Hr; try discriminate;
    try reflexivity.
  - now rewrite estimate_cost_pure.
  - now rewrite get_filtered_costs_pure.
  - now destruct (update_cloud_costs_state updated_costs w) as (sends & -> & _).
  - now destruct (update_service_usage_state updated_usage w) as (sends & -> & _).
Qed.

Lemma handle_registry_ok r w : registry_ok w -> registry_ok (handle r w).
Proof.
  intros (Hnd & Hacc). destruct (is_registry_event r) eqn:Hev.
  - destruct r; try discriminate; cbn [handle].
    + rewrite connect_state.
      destruct (is_gone ws w || is_accepted ws w) eqn:Hrefused; [now split|].
      apply orb_false_iff in Hrefused as (_ & Hnew). split.
      * cbn. apply NoDup_app; [exact Hnd | repeat constructor; intros [] |].
        intros c Hc [Heq|[]]. subst c. rewrite (Hacc ws Hc) in Hnew. discriminate.
      * intros c Hc. unfold is_accepted. cbn.
        destruct (Nat.eqb_spec c ws) as [_|Hne]; [reflexivity|].
        cbn in Hc. apply in_app_or in Hc as [Hc|[->|[]]];
          [now apply Hacc | contradiction].
    + rewrite disconnect_state.
      destruct (list_remove ws (active_connections w)) as [l|] eqn:Hl; [|now split].
      split.
      * cbn. now apply (list_remove_NoDup ws (active_connections w)).
      * intros c Hc. cbn in Hc. apply Hacc.
        now apply (list_remove_incl ws (active_connections w) l).
  - destruct (handle_http r w Hev) as (_ & _ & Hconns & _).
    pose proof (handle_http_accepted r w Hev) as Haccepted.
    unfold registry_ok, is_accepted. rewrite Hconns, Haccepted. now split.
Qed.

(** X20: whatever has been handled since the process started, no websocket
    is in the registry twice, and every registered websocket is one that
    [connect] accepted. *)
Theorem registry_has_no_duplicates (rs : list request) :
  NoDup (active_connections (handle_all rs startup))
  /\ forall c, In c (active_connections (handle_all rs startup)) ->
               is_accepted c (handle_all rs startup) = true.
Proof.
  change (registry_ok (handle_all rs startup)).
  assert (H0 : registry_ok startup) by (split; [constructor | intros c []]).
  revert H0. generalize startup as w.
  induction rs as [|r rs IH]; intros w Hw; [exact Hw|].
  rewrite handle_all_cons. apply IH. now apply handle_registry_ok.
Qed.
